(** * FreeHand AntiGravity: the automation core, embedded and verified

    A shallow embedding of the parts of the extension that decide what gets
    clicked, what gets blocked, which ports get probed and how calls are
    numbered:

    - [JS]: the string primitives of the host language the code relies on;
    - [JSRegExp]: regular expressions (abstract syntax, a backtracking
      matcher, and a reader for a fragment of the concrete syntax);
    - [Constants]: shared/constants.ts;
    - [SafetyFilter]: core/safety-filter.ts;
    - [AutoClicker]: core/auto-clicker.ts, the control channel ([sendCDP])
      and the decision routine that [generateClickScript] builds;
    - [ProcessHunter]: quota/process-hunter.ts.

    Strings are sequences of 7-bit ASCII code units, on which the model is
    exact: case folding, trimming and the classes \s, \w and \d are the
    host's restricted to that range (a code unit above 127 is left alone by
    all of them). *)

From Stdlib Require Import Bool Ascii String List ZArith NArith Lia Sorted Permutation.
Import ListNotations.
Local Open Scope string_scope.
Local Open Scope bool_scope.

(* ===================================================================== *)
(** ** Host string primitives *)
(* ===================================================================== *)

Module JS.

Definition code (c : ascii) : N := N_of_ascii c.

Definition between (lo hi : N) (c : ascii) : bool :=
  (N.leb lo (code c)) && (N.leb (code c) hi).

Definition isUpper : ascii -> bool := between 65 90.
Definition isLower : ascii -> bool := between 97 122.
Definition isDigit : ascii -> bool := between 48 57.

(** \w: letters, digits and the underscore. *)
Definition isWord (c : ascii) : bool :=
  isUpper c || isLower c || isDigit c || N.eqb (code c) 95.

(** \s and the characters [trim] strips: TAB, LF, VT, FF, CR, SPACE. *)
Definition isSpace (c : ascii) : bool :=
  between 9 13 c || N.eqb (code c) 32.

Definition lowerChar (c : ascii) : ascii :=
  if isUpper c then ascii_of_N (code c + 32) else c.

Definition upperChar (c : ascii) : ascii :=
  if isLower c then ascii_of_N (code c - 32) else c.

(** [s.toLowerCase()] *)
Fixpoint toLowerCase (s : string) : string :=
  match s with
  | EmptyString => EmptyString
  | String c s' => String (lowerChar c) (toLowerCase s')
  end.

(** [s.trimStart()] *)
Fixpoint trimStart (s : string) : string :=
  match s with
  | EmptyString => EmptyString
  | String c s' => if isSpace c then trimStart s' else s
  end.

(** [s.trimEnd()]: a suffix made of white space only is dropped. *)
Fixpoint trimEnd (s : string) : string :=
  match s with
  | EmptyString => EmptyString
  | String c s' =>
      match trimEnd s' with
      | EmptyString => if isSpace c then EmptyString else String c EmptyString
      | t => String c t
      end
  end.

(** [s.trim()] *)
Definition trim (s : string) : string := trimEnd (trimStart s).

(** [s.startsWith(p)] *)
Fixpoint startsWith (s p : string) : bool :=
  match p, s with
  | EmptyString, _ => true
  | String a p', String b s' => Ascii.eqb a b && startsWith s' p'
  | String _ _, EmptyString => false
  end.

(** [s.includes(p)] *)
Fixpoint includes (s p : string) : bool :=
  startsWith s p ||
  match s with
  | EmptyString => false
  | String _ s' => includes s' p
  end.

(** [s.length] *)
Definition length (s : string) : Z := Z.of_nat (String.length s).

(** [s.lastIndexOf(c)] for a one-character needle; -1 when absent. *)
Fixpoint lastIndexOfFrom (i : Z) (c : ascii) (s : string) (found : Z) : Z :=
  match s with
  | EmptyString => found
  | String a s' =>
      lastIndexOfFrom (i + 1) c s' (if Ascii.eqb a c then i else found)
  end.

Definition lastIndexOf (s : string) (c : ascii) : Z :=
  lastIndexOfFrom 0 c s (-1).

(** [s.substring(a, b)] and [s.substring(a)]: negative bounds count as 0,
    bounds past the end as the length, and the two are swapped when
    [a > b]. *)
Definition clamp (s : string) (i : Z) : nat :=
  Z.to_nat (Z.min (Z.max i 0) (length s)).

Definition substring (s : string) (a b : Z) : string :=
  let a' := clamp s a in
  let b' := clamp s b in
  String.substring (Nat.min a' b') (Nat.max a' b' - Nat.min a' b') s.

Definition substringFrom (s : string) (a : Z) : string :=
  substring s a (length s).

(** [parts.join(sep)] *)
Fixpoint join (sep : string) (parts : list string) : string :=
  match parts with
  | [] => EmptyString
  | [p] => p
  | p :: rest => p ++ sep ++ join sep rest
  end.

(** [s.split(sep)] for a one-character separator. *)
Fixpoint splitChar (sep : ascii) (s : string) : list string :=
  match s with
  | EmptyString => [EmptyString]
  | String c s' =>
      if Ascii.eqb c sep then EmptyString :: splitChar sep s'
      else match splitChar sep s' with
           | [] => [String c EmptyString]
           | w :: ws => String c w :: ws
           end
  end.

(** The pieces of [s] between maximal runs of separators.  A run at either
    end leaves an empty piece there; [inRun] tells that the character before
    was a separator. *)
Fixpoint splitRuns (sep : ascii -> bool) (inRun : bool) (s : string) : list string :=
  match s with
  | EmptyString => [EmptyString]
  | String c s' =>
      if sep c then
        if inRun then splitRuns sep true s'
        else EmptyString :: splitRuns sep true s'
      else match splitRuns sep false s' with
           | [] => [String c EmptyString]
           | w :: ws => String c w :: ws
           end
  end.

(** [s.split(/\s+/)] *)
Definition splitSpaces (s : string) : list string := splitRuns isSpace false s.

(** The value of a run of decimal digits. *)
Fixpoint digitsValue (acc : Z) (s : string) : Z :=
  match s with
  | EmptyString => acc
  | String c s' =>
      if isDigit c then digitsValue (10 * acc + Z.of_N (code c - 48)) s'
      else acc
  end.

(** [parseInt(s, 10)]: leading white space, an optional sign, then the
    longest run of digits; [None] is NaN (no digit where one is due). *)
Definition parseInt (s : string) : option Z :=
  let body (t : string) : option Z :=
    match t with
    | String c _ => if isDigit c then Some (digitsValue 0 t) else None
    | EmptyString => None
    end in
  match trimStart s with
  | String "-" t => option_map Z.opp (body t)
  | String "+" t => body t
  | t => body t
  end.

End JS.

(* ===================================================================== *)
(** ** Regular expressions *)
(* ===================================================================== *)

(** The regular expressions the code writes as literals are embedded as
    abstract syntax and run by the backtracking matcher below, which tries
    alternatives left to right and repetitions greedily, as the host does.
    [newRegExp] reads a fragment of the concrete syntax, so that the
    expressions a user writes in the blocklist can be run as well. *)

Module JSRegExp.

Inductive re : Type :=
| Empty                                   (* the empty pattern *)
| Char (f : ascii -> bool)                (* one character of a set *)
| Any                                     (* . *)
| Seq (a b : re)
| Alt (a b : re)
| Repeat (lo : nat) (hi : option nat) (a : re)   (* a{lo,hi}, greedy *)
| Bol                                     (* ^ *)
| Eol                                     (* $ *)
| WordBoundary (positive : bool)          (* \b and \B *)
| Capture (n : nat) (a : re).             (* the n-th capturing group *)

Record flags : Type := {
  ignoreCase : bool;   (* i *)
  multiline : bool;    (* m *)
  dotAll : bool;       (* s *)
  sticky : bool        (* y *)
}.

Record regex : Type := { source : re; options : flags }.

(** A position in the subject: the character before it, what is left, and
    the groups captured on the way (latest first). *)
Record position : Type := {
  prev : option ascii;
  rest : string;
  caps : list (nat * string)
}.

Definition isLineTerminator (c : ascii) : bool :=
  N.eqb (JS.code c) 10 || N.eqb (JS.code c) 13.

Definition charMatches (fl : flags) (f : ascii -> bool) (c : ascii) : bool :=
  if ignoreCase fl then f c || f (JS.lowerChar c) || f (JS.upperChar c)
  else f c.

Definition advance (p : position) (c : ascii) (t : string) : position :=
  {| prev := Some c; rest := t; caps := caps p |}.

Definition wordBefore (p : position) : bool :=
  match prev p with Some c => JS.isWord c | None => false end.

Definition wordAfter (p : position) : bool :=
  match rest p with String c _ => JS.isWord c | EmptyString => false end.

Definition atLineStart (fl : flags) (p : position) : bool :=
  match prev p with
  | None => true
  | Some c => multiline fl && isLineTerminator c
  end.

Definition atLineEnd (fl : flags) (p : position) : bool :=
  match rest p with
  | EmptyString => true
  | String c _ => multiline fl && isLineTerminator c
  end.

Definition consumed (p q : position) : string :=
  String.substring 0 (String.length (rest p) - String.length (rest q)) (rest p).

Definition progressed (p q : position) : bool :=
  Nat.ltb (String.length (rest q)) (String.length (rest p)).

(** [run fl r p k]: match [r] at [p], then hand the position reached to
    the continuation [k]; the first way that makes [k] succeed wins. *)
Fixpoint run {A : Type} (fl : flags) (r : re) (p : position)
    (k : position -> option A) : option A :=
  match r with
  | Empty => k p
  | Char f =>
      match rest p with
      | String c t => if charMatches fl f c then k (advance p c t) else None
      | EmptyString => None
      end
  | Any =>
      match rest p with
      | String c t =>
          if dotAll fl || negb (isLineTerminator c) then k (advance p c t)
          else None
      | EmptyString => None
      end
  | Seq a b => run fl a p (fun q => run fl b q k)
  | Alt a b =>
      match run fl a p k with
      | Some x => Some x
      | None => run fl b p k
      end
  | Repeat lo hi a =>
      (fix iter (fuel : nat) (count : nat) (p : position) : option A :=
         match fuel with
         | O => if Nat.leb lo count then k p else None
         | S fuel' =>
             if Nat.ltb count lo then
               run fl a p (fun q => iter fuel' (S count) q)
             else
               let more :=
                 match hi with
                 | Some h =>
                     if Nat.ltb count h then
                       run fl a p (fun q =>
                         if progressed p q then iter fuel' (S count) q else None)
                     else None
                 | None =>
                     run fl a p (fun q =>
                       if progressed p q then iter fuel' (S count) q else None)
                 end in
               match more with
               | Some x => Some x
               | None => k p
               end
         end) (lo + String.length (rest p) + 1)%nat O p
  | Bol => if atLineStart fl p then k p else None
  | Eol => if atLineEnd fl p then k p else None
  | WordBoundary positive =>
      if Bool.eqb (xorb (wordBefore p) (wordAfter p)) positive then k p else None
  | Capture n a =>
      run fl a p (fun q =>
        k {| prev := prev q; rest := rest q; caps := (n, consumed p q) :: caps q |})
  end.

(** One attempt at one position: the position after the match. *)
Definition matchHere (r : regex) (p : position) : option position :=
  run (options r) (source r) p (fun q => Some q).

(** Leftmost match from the start of [s]: where it starts is implicit in
    the recursion; a sticky expression only tries the first position. *)
Fixpoint searchFrom (r : regex) (before : option ascii) (s : string)
    : option (position * position) :=
  let p := {| prev := before; rest := s; caps := [] |} in
  match matchHere r p with
  | Some q => Some (p, q)
  | None =>
      if sticky (options r) then None
      else match s with
           | EmptyString => None
           | String c t => searchFrom r (Some c) t
           end
  end.

(** [regex.exec(s)] on a fresh expression: the text matched and the
    captured groups. *)
Definition exec (r : regex) (s : string) : option (string * list (nat * string)) :=
  match searchFrom r None s with
  | Some (p, q) => Some (consumed p q, caps q)
  | None => None
  end.

(** [regex.test(s)] on a fresh expression. *)
Definition test (r : regex) (s : string) : bool :=
  match exec r s with Some _ => true | None => false end.

(** [m[n]] of the result of [s.match(regex)] for a non-global expression. *)
Fixpoint lookupGroup (n : nat) (cs : list (nat * string)) : option string :=
  match cs with
  | [] => None
  | (m, v) :: cs' => if Nat.eqb m n then Some v else lookupGroup n cs'
  end.

Definition group (n : nat) (m : option (string * list (nat * string))) : option string :=
  match m with
  | Some (_, cs) => lookupGroup n cs
  | None => None
  end.

(** [s.match(regex)] for a global expression: every match, left to right,
    each search resuming where the last match ended (one further on after
    an empty match).  [skip] counts the characters of the last match still
    to be passed over. *)
Fixpoint matchAllFrom (r : regex) (before : option ascii) (s : string)
    (skip : nat) : list string :=
  match skip with
  | S skip' =>
      match s with
      | EmptyString => []
      | String c t => matchAllFrom r (Some c) t skip'
      end
  | O =>
      let p := {| prev := before; rest := s; caps := [] |} in
      match matchHere r p with
      | Some q =>
          consumed p q ::
          match s with
          | EmptyString => []
          | String c t =>
              matchAllFrom r (Some c) t (String.length (consumed p q) - 1)
          end
      | None =>
          match s with
          | EmptyString => []
          | String c t => matchAllFrom r (Some c) t O
          end
      end
  end.

Definition matchAll (r : regex) (s : string) : list string :=
  matchAllFrom r None s O.

(** *** Building blocks for the literals of the code *)

Definition noFlags : flags :=
  {| ignoreCase := false; multiline := false; dotAll := false; sticky := false |}.

Definition flagI : flags :=
  {| ignoreCase := true; multiline := false; dotAll := false; sticky := false |}.

Definition lit1 (c : ascii) : re := Char (Ascii.eqb c).

Fixpoint lit (s : string) : re :=
  match s with
  | EmptyString => Empty
  | String c EmptyString => lit1 c
  | String c t => Seq (lit1 c) (lit t)
  end.

Definition digit : re := Char JS.isDigit.            (* \d *)
Definition space : re := Char JS.isSpace.            (* \s *)
Definition plus (a : re) : re := Repeat 1 None a.    (* a+ *)
Definition star (a : re) : re := Repeat 0 None a.    (* a* *)
Definition opt (a : re) : re := Repeat 0 (Some 1%nat) a.   (* a? *)

(** *** Reading the concrete syntax

    [newRegExp pattern flags] is [new RegExp(pattern, flags)] for the
    fragment made of literal characters, [.], the escapes \d \D \w \W \s
    \S \t \n \v \f \r and escaped punctuation, the assertions ^ $ \b \B,
    character classes, groups, alternation and the greedy quantifiers
    * + ?.  [SyntaxError] is the host's exception; [Unsupported] marks
    what lies outside the fragment (lazy and braced quantifiers, look-
    around, back references, named groups, numeric escapes, the unicode
    modes), which this reader refuses as well. *)

Inductive parsed (A : Type) : Type :=
| Parsed (x : A)
| SyntaxError
| Unsupported.
Arguments Parsed {A} x.
Arguments SyntaxError {A}.
Arguments Unsupported {A}.

Definition bind {A B : Type} (m : parsed A) (f : A -> parsed B) : parsed B :=
  match m with
  | Parsed x => f x
  | SyntaxError => SyntaxError
  | Unsupported => Unsupported
  end.

Notation "x <- m ;; k" := (bind m (fun x => k))
  (at level 61, m at next level, right associativity).

Fixpoint mem (c : ascii) (s : string) : bool :=
  match s with
  | EmptyString => false
  | String a t => Ascii.eqb a c || mem c t
  end.

Fixpoint noRepeat (s : string) : bool :=
  match s with
  | EmptyString => true
  | String a t => negb (mem a t) && noRepeat t
  end.

Fixpoint allIn (allowed s : string) : bool :=
  match s with
  | EmptyString => true
  | String a t => mem a allowed && allIn allowed t
  end.

Definition parseFlags (s : string) : parsed flags :=
  if allIn "dgimsuvy" s && noRepeat s && negb (mem "u" s && mem "v" s) then
    if mem "u" s || mem "v" s then Unsupported
    else Parsed {| ignoreCase := mem "i" s; multiline := mem "m" s;
                   dotAll := mem "s" s; sticky := mem "y" s |}
  else SyntaxError.

Definition escapeSet (c : ascii) : option (ascii -> bool) :=
  if Ascii.eqb c "d" then Some JS.isDigit
  else if Ascii.eqb c "D" then Some (fun x => negb (JS.isDigit x))
  else if Ascii.eqb c "w" then Some JS.isWord
  else if Ascii.eqb c "W" then Some (fun x => negb (JS.isWord x))
  else if Ascii.eqb c "s" then Some JS.isSpace
  else if Ascii.eqb c "S" then Some (fun x => negb (JS.isSpace x))
  else None.

Definition escapeChar (c : ascii) : option ascii :=
  if Ascii.eqb c "t" then Some (ascii_of_N 9)
  else if Ascii.eqb c "n" then Some (ascii_of_N 10)
  else if Ascii.eqb c "v" then Some (ascii_of_N 11)
  else if Ascii.eqb c "f" then Some (ascii_of_N 12)
  else if Ascii.eqb c "r" then Some (ascii_of_N 13)
  else if JS.isWord c then None
  else Some c.

(** A member of a character class: a set or a single character. *)
Definition classAtom (s : string) : parsed ((ascii -> bool) * option ascii * string) :=
  match s with
  | EmptyString => SyntaxError
  | String "\" EmptyString => SyntaxError
  | String "\" (String e t) =>
      match escapeSet e with
      | Some f => Parsed (f, None, t)
      | None =>
          if Ascii.eqb e "b" then Parsed (Ascii.eqb (ascii_of_N 8), Some (ascii_of_N 8), t)
          else match escapeChar e with
               | Some c => Parsed (Ascii.eqb c, Some c, t)
               | None => Unsupported
               end
      end
  | String c t => Parsed (Ascii.eqb c, Some c, t)
  end.

Fixpoint parseClass (fuel : nat) (s : string) (acc : ascii -> bool)
    : parsed ((ascii -> bool) * string) :=
  match fuel with
  | O => Unsupported
  | S fuel' =>
      match s with
      | EmptyString => SyntaxError
      | String "]" t => Parsed (acc, t)
      | _ =>
          a <- classAtom s ;;
          let '(f, lo, t) := a in
          match t with
          | String "-" ((String c _) as t') =>
              if Ascii.eqb c "]" then
                parseClass fuel' t (fun x => acc x || f x)
              else
                b <- classAtom t' ;;
                let '(_, hi, t'') := b in
                match lo, hi with
                | Some l, Some h =>
                    if N.leb (JS.code l) (JS.code h) then
                      parseClass fuel' t''
                        (fun x => acc x || JS.between (JS.code l) (JS.code h) x)
                    else SyntaxError
                | _, _ => Unsupported
                end
          | _ => parseClass fuel' t (fun x => acc x || f x)
          end
      end
  end.

Inductive term : Type :=
| Atom (r : re)
| Assertion (r : re).

Definition disjunction (alts : re * list re) : re :=
  fold_left Alt (snd alts) (fst alts).

Definition quantify (tm : term) (s : string) : parsed (re * string) :=
  match tm, s with
  | Assertion _, String "*" _ | Assertion _, String "+" _
  | Assertion _, String "?" _ => SyntaxError
  | _, String "{" _ => Unsupported
  | Assertion r, _ => Parsed (r, s)
  | Atom r, String q t =>
      let quantified (x : re) : parsed (re * string) :=
        match t with
        | String "?" _ => Unsupported
        | _ => Parsed (x, t)
        end in
      if Ascii.eqb q "*" then quantified (Repeat 0 None r)
      else if Ascii.eqb q "+" then quantified (Repeat 1 None r)
      else if Ascii.eqb q "?" then quantified (Repeat 0 (Some 1%nat) r)
      else Parsed (r, s)
  | Atom r, EmptyString => Parsed (r, s)
  end.

Fixpoint parseDisjunction (fuel : nat) (s : string)
    : parsed ((re * list re) * string) :=
  match fuel with
  | O => Unsupported
  | S fuel' =>
      match s with
      | EmptyString => Parsed ((Empty, []), s)
      | String ")" _ => Parsed ((Empty, []), s)
      | String "|" t =>
          d <- parseDisjunction fuel' t ;;
          Parsed ((Empty, fst (fst d) :: snd (fst d)), snd d)
      | String c t =>
          tm <- (if mem c "*+?" then SyntaxError
                 else if Ascii.eqb c "{" then Unsupported
                 else if Ascii.eqb c "^" then Parsed (Assertion Bol, t)
                 else if Ascii.eqb c "$" then Parsed (Assertion Eol, t)
                 else if Ascii.eqb c "." then Parsed (Atom Any, t)
                 else if Ascii.eqb c "\" then
                   match t with
                   | EmptyString => SyntaxError
                   | String e t' =>
                       if Ascii.eqb e "b" then Parsed (Assertion (WordBoundary true), t')
                       else if Ascii.eqb e "B" then Parsed (Assertion (WordBoundary false), t')
                       else match escapeSet e, escapeChar e with
                            | Some f, _ => Parsed (Atom (Char f), t')
                            | None, Some x => Parsed (Atom (lit1 x), t')
                            | None, None => Unsupported
                            end
                   end
                 else if Ascii.eqb c "[" then
                   match t with
                   | String "^" t' =>
                       cl <- parseClass fuel' t' (fun _ => false) ;;
                       Parsed (Atom (Char (fun x => negb (fst cl x))), snd cl)
                   | _ =>
                       cl <- parseClass fuel' t (fun _ => false) ;;
                       Parsed (Atom (Char (fst cl)), snd cl)
                   end
                 else if Ascii.eqb c "(" then
                   body <- match t with
                           | String "?" (String ":" t') => Parsed t'
                           | String "?" _ => Unsupported
                           | _ => Parsed t
                           end ;;
                   d <- parseDisjunction fuel' body ;;
                   match snd d with
                   | String ")" t' => Parsed (Atom (disjunction (fst d)), t')
                   | _ => SyntaxError
                   end
                 else Parsed (Atom (lit1 c), t)) ;;
          q <- quantify (fst tm) (snd tm) ;;
          d <- parseDisjunction fuel' (snd q) ;;
          Parsed ((Seq (fst q) (fst (fst d)), snd (fst d)), snd d)
      end
  end.

Definition parsePattern (s : string) : parsed re :=
  d <- parseDisjunction (S (String.length s)) s ;;
  match snd d with
  | EmptyString => Parsed (disjunction (fst d))
  | _ => SyntaxError
  end.

Definition construct (pattern flagText : string) : parsed regex :=
  fl <- parseFlags flagText ;;
  r <- parsePattern pattern ;;
  Parsed {| source := r; options := fl |}.

(** [new RegExp(pattern, flags)], as the test it yields; [None] when the
    constructor throws. *)
Definition newRegExp (pattern flagText : string) : option (string -> bool) :=
  match construct pattern flagText with
  | Parsed r => Some (test r)
  | _ => None
  end.

End JSRegExp.

(* ===================================================================== *)
(** ** shared/constants.ts *)
(* ===================================================================== *)

Module Constants.

(** Button patterns to auto-click. *)
Definition ACCEPT_PATTERNS : list string :=
  [ "accept"; "accept all"; "run"; "run command"; "apply"; "execute";
    "retry"; "try again"; "resume"; "confirm"; "allow once"; "allow" ].

(** Patterns to reject (never click). *)
Definition REJECT_PATTERNS : list string :=
  [ "skip"; "reject"; "cancel"; "discard"; "deny"; "close"; "refine"; "other" ].

(** Default blocked commands. *)
Definition DEFAULT_BLOCKLIST : list string :=
  [ "rm -rf /"; "rm -rf ~"; "rm -rf *"; "format c:"; "del /f /s /q";
    "rmdir /s /q"; ":(){:|:&};:"; "dd if="; "mkfs."; "> /dev/sda";
    "chmod -R 777 /" ].

End Constants.

(* ===================================================================== *)
(** ** core/safety-filter.ts *)
(* ===================================================================== *)

Module SafetyFilter.

(** The value of [config.get<string[]>('safety.blocklist')]: [None] when
    the setting is absent. *)
Definition setting : Type := option (list string).

(** [getBlocklist()] *)
Definition getBlocklist (custom : setting) : list string :=
  match custom with
  | Some (p :: ps) => p :: ps
  | _ => Constants.DEFAULT_BLOCKLIST
  end.

(** The test [pattern.startsWith('/') && pattern.lastIndexOf('/') > 0]. *)
Definition delimited (pattern : string) : bool :=
  JS.startsWith pattern "/" && (0 <? JS.lastIndexOf pattern "/")%Z.

(** [pattern.substring(1, lastSlash)] *)
Definition regexPattern (pattern : string) : string :=
  JS.substring pattern 1 (JS.lastIndexOf pattern "/").

(** [pattern.substring(lastSlash + 1) || 'i'] *)
Definition regexFlags (pattern : string) : string :=
  match JS.substringFrom pattern (JS.lastIndexOf pattern "/" + 1) with
  | EmptyString => "i"
  | f => f
  end.

Section Engine.

(** [new RegExp(pattern, flags)]: the test of the expression built, or
    [None] when the constructor throws. *)
Variable RegExp : string -> string -> option (string -> bool).

(** The loop of [isBlocked] over the blocklist. *)
Fixpoint scan (blocklist : list string) (lowerCommand command : string) : bool :=
  match blocklist with
  | [] => false
  | pattern :: rest =>
      let lowerPattern := JS.trim (JS.toLowerCase pattern) in
      match lowerPattern with
      | EmptyString => scan rest lowerCommand command        (* continue *)
      | _ =>
          if delimited pattern then
            match RegExp (regexPattern pattern) (regexFlags pattern) with
            | Some regex =>
                if regex command then true
                else scan rest lowerCommand command
            | None =>
                (* Invalid regex, fall back to literal match *)
                if JS.includes lowerCommand lowerPattern then true
                else scan rest lowerCommand command
            end
          else
            (* Literal match *)
            if JS.includes lowerCommand lowerPattern then true
            else scan rest lowerCommand command
      end
  end.

(** [isBlocked(command)] *)
Definition isBlocked (custom : setting) (command : string) : bool :=
  scan (getBlocklist custom) (JS.toLowerCase command) command.

End Engine.

End SafetyFilter.

(* ===================================================================== *)
(** ** The page the decision routine runs in *)
(* ===================================================================== *)

(** An element is what the routine can observe of it: its tag, the two
    attributes the selectors read, the class attributes of its ancestors
    (nearest first, for [closest]), its text, the computed style and box the
    visibility test reads, and [preview]: the text of
    [el.closest('div')?.querySelector('pre, code')], when there is such a
    node.  A page is taken as it stands when the routine starts. *)

Module DOM.

Record Element : Type := {
  tagName : string;
  role : option string;
  className : option string;
  ancestors : list (option string);
  isContentEditable : bool;
  textContent : string;
  display : string;
  pointerEvents : string;
  width : Z;
  disabled : bool;
  preview : option string
}.

Record Document : Type := {
  activeElement : option Element;
  elements : list Element          (* every element, in document order *)
}.

(** Type selector, e.g. [button]. *)
Definition hasTag (name : string) (el : Element) : bool :=
  String.eqb (JS.toLowerCase (tagName el)) name.

(** [[role="v"]] *)
Definition roleIs (v : string) (el : Element) : bool :=
  match role el with
  | Some r => String.eqb r v
  | None => false
  end.

(** [[class*="v"]] on a class attribute. *)
Definition classContains (v : string) (cls : option string) : bool :=
  match cls with
  | Some c => JS.includes c v
  | None => false
  end.

(** The white space that separates the names of a class attribute: TAB,
    LF, FF, CR, SPACE. *)
Definition isClassSeparator (c : ascii) : bool :=
  JS.isSpace c && negb (N.eqb (JS.code c) 11).

(** [.name] on a class attribute. *)
Definition hasClass (name : string) (cls : option string) : bool :=
  match cls with
  | Some c => existsb (String.eqb name) (JS.splitRuns isClassSeparator false c)
  | None => false
  end.

(** [el.closest(sel)] is non-null, for a selector [sel] on the class. *)
Definition closest (sel : option string -> bool) (el : Element) : bool :=
  existsb sel (className el :: ancestors el).

(** [document.querySelectorAll(sel)] *)
Definition querySelectorAll (sel : Element -> bool) (doc : Document) : list Element :=
  filter sel (elements doc).

End DOM.

(* ===================================================================== *)
(** ** core/auto-clicker.ts: the decision routine *)
(* ===================================================================== *)

Module ClickScript.
Import DOM.

(** The value the routine returns: [{ clicked, skipped }]. *)
Record PollResult : Type := {
  clicked : Z;
  skipped : option string
}.

Section Routine.

(** The three lists [generateClickScript] writes into the routine. *)
Variables ACCEPT_PATTERNS REJECT_PATTERNS BLOCKLIST : list string.

(** [isUserTyping()] *)
Definition isUserTyping (doc : Document) : bool :=
  match activeElement doc with
  | None => false
  | Some activeEl =>
      let tagName := JS.toLowerCase (tagName activeEl) in
      if String.eqb tagName "input" || String.eqb tagName "textarea" then true
      else if isContentEditable activeEl then true
      else if closest (hasClass "monaco-editor") activeEl then true
      else if closest (classContains "input") activeEl then true
      else if closest (hasClass "ProseMirror") activeEl then true
      else false
  end.

(** [isCommandBlocked(text)] *)
Definition isCommandBlocked (text : string) : bool :=
  let lowerText := JS.toLowerCase text in
  existsb (fun pattern => JS.includes lowerText (JS.toLowerCase pattern)) BLOCKLIST.

(** The text [isAcceptButton] judges: trimmed and case-folded. *)
Definition normalizedText (el : Element) : string :=
  JS.toLowerCase (JS.trim (textContent el)).

(** [isAcceptButton(el)] *)
Definition isAcceptButton (el : Element) : bool :=
  let text := normalizedText el in
  if (JS.length text =? 0)%Z || (50 <? JS.length text)%Z then false
  else if existsb (fun p => JS.includes text p) REJECT_PATTERNS then false
  else if negb (existsb (fun p => JS.includes text p) ACCEPT_PATTERNS) then false
  else if String.eqb (display el) "none" || (width el =? 0)%Z then false
  else if String.eqb (pointerEvents el) "none" || disabled el then false
  else true.

(** The selector of the candidates. *)
Definition candidate (el : Element) : bool :=
  hasTag "button" el || roleIs "button" el || classContains "button" (className el).

(** The test guarding [continue]: run or execute wording next to a
    blocked preview. *)
Definition blockedCommand (btn : Element) : bool :=
  let text := JS.trim (textContent btn) in
  if JS.includes (JS.toLowerCase text) "run" || JS.includes (JS.toLowerCase text) "execute" then
    match preview btn with
    | Some pre => isCommandBlocked pre
    | None => false
    end
  else false.

(** The loop over the candidates: the count, and the elements clicked
    in the order of the clicks. *)
Fixpoint clickLoop (buttons : list Element) (count : Z) (log : list Element)
    : Z * list Element :=
  match buttons with
  | [] => (count, log)
  | btn :: rest =>
      if isAcceptButton btn then
        if blockedCommand btn then clickLoop rest count log     (* continue *)
        else clickLoop rest (count + 1)%Z (log ++ [btn])         (* btn.click() *)
      else clickLoop rest count log
  end.

(** The routine: its value and the clicks it made. *)
Definition routine (doc : Document) : PollResult * list Element :=
  if isUserTyping doc then
    ({| clicked := 0; skipped := Some "user typing" |}, [])
  else
    let '(count, log) :=
      clickLoop (querySelectorAll candidate doc) 0%Z [] in
    ({| clicked := count; skipped := None |}, log).

End Routine.

(** [generateClickScript()], as the routine the script denotes.  The
    blocklist written into it is
    [this.config.get<string[]>('safety.blocklist') ?? []]. *)
Definition generateClickScript (blocklist : SafetyFilter.setting)
    : Document -> PollResult * list Element :=
  routine Constants.ACCEPT_PATTERNS Constants.REJECT_PATTERNS
    (match blocklist with Some l => l | None => [] end).

End ClickScript.

(* ===================================================================== *)
(** ** core/auto-clicker.ts: the control channel *)
(* ===================================================================== *)

(** [AutoClicker] keeps one counter, [messageId], and at most one current
    socket, [ws].  A call made by [sendCDP] lives as a promise and a
    'message' listener on the socket it was sent on; the listener is removed
    exactly when the promise is settled, so the calls still [Pending] on a
    socket are its listeners.  The counter is a host number: the model is
    exact for every value below 2^53. *)

Module Channel.

Inductive readyState : Type := CONNECTING | OPEN | CLOSING | CLOSED.

Inductive outcome : Type :=
| Pending
| Resolved (result : string)
| Rejected (message : string).

Record Call : Type := {
  callId : Z;
  socket : nat;            (* the socket the listener sits on *)
  settled : outcome
}.

(** [{ id, method, params }] *)
Record Envelope : Type := {
  id : Z;
  method : string;
  params : option string
}.

(** An inbound message once parsed: [{ id, result }] or [{ id, error }]. *)
Record Response : Type := {
  responseId : Z;
  error : option string;   (* [response.error.message] *)
  result : string
}.

Record AutoClicker : Type := {
  ws : option nat;                 (* [this.ws]: the current socket, or null *)
  sockets : list readyState;       (* every socket made so far, by number *)
  messageId : Z;                   (* [this.messageId] *)
  calls : list Call;               (* the promises [sendCDP] returned *)
  wire : list (nat * Envelope)     (* what was sent, and on which socket *)
}.

(** [new AutoClicker(config, logger)] *)
Definition init : AutoClicker :=
  {| ws := None; sockets := []; messageId := 0; calls := []; wire := [] |}.

Definition stateOf (st : AutoClicker) (k : nat) : readyState :=
  nth k (sockets st) CLOSED.

Fixpoint setState (k : nat) (s : readyState) (l : list readyState) : list readyState :=
  match l, k with
  | [], _ => []
  | _ :: t, O => s :: t
  | x :: t, S k' => x :: setState k' s t
  end.

(** [sendCDP(method, params)]: the state after the call and the id of the
    envelope sent, or [None] when it throws 'WebSocket not connected'. *)
Definition sendCDP (st : AutoClicker) (m : string) (p : option string)
    : AutoClicker * option Z :=
  match ws st with
  | None => (st, None)
  | Some k =>
      match stateOf st k with
      | OPEN =>
          let id := (messageId st + 1)%Z in                  (* ++this.messageId *)
          ({| ws := ws st;
              sockets := sockets st;
              messageId := id;
              calls := calls st ++ [ {| callId := id; socket := k; settled := Pending |} ];
              wire := wire st ++ [ (k, {| id := id; method := m; params := p |}) ] |},
           Some id)
      | _ => (st, None)
      end
  end.

(** The listener of one call, run on a message of socket [k]. *)
Definition handler (k : nat) (r : Response) (c : Call) : Call :=
  match settled c with
  | Pending =>
      if Nat.eqb (socket c) k && (responseId r =? callId c)%Z then
        {| callId := callId c; socket := socket c;
           settled := match error r with
                      | Some msg => Rejected msg
                      | None => Resolved (result r)
                      end |}
      else c
  | _ => c
  end.

(** A message arrives on socket [k]: every listener of that socket runs. *)
Definition onMessage (st : AutoClicker) (k : nat) (r : Response) : AutoClicker :=
  match stateOf st k with
  | OPEN =>
      {| ws := ws st; sockets := sockets st; messageId := messageId st;
         calls := map (handler k r) (calls st); wire := wire st |}
  | _ => st
  end.

(** [connect()] up to the 'open' event: a fresh socket becomes [this.ws]. *)
Definition connect (st : AutoClicker) : AutoClicker :=
  {| ws := Some (List.length (sockets st));
     sockets := sockets st ++ [OPEN];
     messageId := messageId st; calls := calls st; wire := wire st |}.

(** [disconnect()] *)
Definition disconnect (st : AutoClicker) : AutoClicker :=
  match ws st with
  | Some k =>
      {| ws := None; sockets := setState k CLOSED (sockets st);
         messageId := messageId st; calls := calls st; wire := wire st |}
  | None => st
  end.

(** The transport of socket [k] closes or fails: no listener for 'close'
    or, after [connect], for 'error' touches the calls. *)
Definition onClose (st : AutoClicker) (k : nat) : AutoClicker :=
  {| ws := ws st; sockets := setState k CLOSED (sockets st);
     messageId := messageId st; calls := calls st; wire := wire st |}.

Inductive event : Type :=
| Connect
| Send (m : string) (p : option string)
| Message (k : nat) (r : Response)
| Close (k : nat)
| Disconnect
| Tick (ms : Z).          (* time passes: [sendCDP] sets no timer *)

Definition step (st : AutoClicker) (e : event) : AutoClicker :=
  match e with
  | Connect => connect st
  | Send m p => fst (sendCDP st m p)
  | Message k r => onMessage st k r
  | Close k => onClose st k
  | Disconnect => disconnect st
  | Tick _ => st
  end.

Definition run (st : AutoClicker) (evs : list event) : AutoClicker :=
  fold_left step evs st.

(** The ids of the envelopes sent, in the order they were sent. *)
Definition issued (st : AutoClicker) : list Z :=
  map (fun e => id (snd e)) (wire st).

(** What became of the call numbered [i]. *)
Definition outcomeOf (st : AutoClicker) (i : Z) : option outcome :=
  option_map settled (find (fun c => (callId c =? i)%Z) (calls st)).

(** No message of the trace answers call [i]. *)
Definition unanswered (i : Z) (evs : list event) : Prop :=
  Forall (fun e => match e with
                   | Message _ r => responseId r <> i
                   | _ => True
                   end) evs.

End Channel.

(* ===================================================================== *)
(** ** quota/process-hunter.ts *)
(* ===================================================================== *)

Module ProcessHunter.
Import JSRegExp.

Record ProcessInfo : Type := {
  pid : Z;
  extensionPort : Z;
  csrfToken : string
}.

Inductive Platform : Type := win32 | darwin | linux.

(** [/\b\d{1,5}\b/g] *)
Definition portNumber : regex :=
  {| source := Seq (WordBoundary true)
                 (Seq (Repeat 1 (Some 5%nat) digit) (WordBoundary true));
     options := noFlags |}.

(** [/--extension_server_port[=\s]+(\d+)/] *)
Definition portFlag : regex :=
  {| source := Seq (lit "--extension_server_port")
                 (Seq (plus (Char (fun c => Ascii.eqb c "=" || JS.isSpace c)))
                      (Capture 1 (plus digit)));
     options := noFlags |}.

(** [/--csrf_token[=\s]+([a-zA-Z0-9-]+)/i] *)
Definition tokenFlag : regex :=
  {| source := Seq (lit "--csrf_token")
                 (Seq (plus (Char (fun c => Ascii.eqb c "=" || JS.isSpace c)))
                      (Capture 1 (plus (Char (fun c =>
                         JS.isLower c || JS.isUpper c || JS.isDigit c
                         || Ascii.eqb c "-")))));
     options := flagI |}.

(** [/--csrf_token[=\s]+([a-f0-9-]+)/i] *)
Definition tokenFlagHex : regex :=
  {| source := Seq (lit "--csrf_token")
                 (Seq (plus (Char (fun c => Ascii.eqb c "=" || JS.isSpace c)))
                      (Capture 1 (plus (Char (fun c =>
                         JS.between 97 102 c || JS.isDigit c
                         || Ascii.eqb c "-")))));
     options := flagI |}.

(** [/--app_data_dir\s+antigravity\b/i] *)
Definition markerArgument : regex :=
  {| source := Seq (lit "--app_data_dir")
                 (Seq (plus space)
                      (Seq (lit "antigravity") (WordBoundary true)));
     options := flagI |}.

(** [isAntigravityProcess(cmdLine)] *)
Definition isAntigravityProcess (cmdLine : string) : bool :=
  JS.includes cmdLine "--extension_server_port" &&
  JS.includes cmdLine "--csrf_token" &&
  test markerArgument cmdLine.

(** [portMatch?.[1] ? parseInt(portMatch[1], 10) : 0] *)
Definition portOf (cmd : string) : Z :=
  match group 1 (exec portFlag cmd) with
  | Some (String c t) =>
      match JS.parseInt (String c t) with Some n => n | None => 0%Z end
  | _ => 0%Z
  end.

(** One process of the Windows listing, as [JSON.parse] yields it. *)
Record Win32Process : Type := {
  ProcessId : option Z;
  CommandLine : option string
}.

(** The body of the loop over the Windows listing. *)
Definition candidateOfItem (item : Win32Process) : option ProcessInfo :=
  let cmdLine := match CommandLine item with
                 | Some (String c t) => String c t
                 | _ => EmptyString
                 end in
  if negb (isAntigravityProcess cmdLine) then None                 (* continue *)
  else
    match ProcessId item, group 1 (exec tokenFlagHex cmdLine) with
    | Some p, Some (String c t) =>
        if (p =? 0)%Z then None
        else Some {| pid := p; extensionPort := portOf cmdLine;
                     csrfToken := String c t |}
    | _, _ => None
    end.

(** [parts.slice(2).join(' ')] *)
Definition commandOf (parts : list string) : string :=
  JS.join " " (skipn 2 parts).

(** The body of the loop over the lines of [ps]. *)
Definition candidateOfLine (line : string) : option ProcessInfo :=
  let parts := JS.splitSpaces (JS.trim line) in
  if Nat.ltb (List.length parts) 3 then None                       (* continue *)
  else
    let cmd := commandOf parts in
    match JS.parseInt (hd EmptyString parts) with
    | None => None                                                 (* isNaN(pid) *)
    | Some p =>
        if negb (isAntigravityProcess cmd) then None               (* continue *)
        else
          match group 1 (exec tokenFlag cmd) with
          | Some (String c t) =>
              Some {| pid := p; extensionPort := portOf cmd;
                      csrfToken := String c t |}
          | _ => None
          end
    end.

(** A loop that pushes the candidate each entry yields, if any. *)
Fixpoint collectCandidates {A : Type} (body : A -> option ProcessInfo)
    (entries : list A) (candidates : list ProcessInfo) : list ProcessInfo :=
  match entries with
  | [] => candidates
  | e :: rest =>
      match body e with
      | Some c => collectCandidates body rest (candidates ++ [c])
      | None => collectCandidates body rest candidates
      end
  end.

(** [stdout.split('\n').filter(l => l.trim())] *)
Definition linesOf (stdout : string) : list string :=
  filter (fun l => negb (String.eqb (JS.trim l) EmptyString))
         (JS.splitChar (ascii_of_N 10) stdout).

Section Parsing.

(** [JSON.parse] of the Windows listing from its first brace on, a lone
    object wrapped into a list; [None] when it throws. *)
Variable parseListing : string -> option (list Win32Process).

(** [parseProcessInfo(stdout)] *)
Definition parseProcessInfo (platform : Platform) (stdout : string)
    : list ProcessInfo :=
  match platform with
  | win32 =>
      if JS.includes stdout "{" then
        match parseListing stdout with
        | Some data => collectCandidates candidateOfItem data []
        | None => []                                             (* Parse failed *)
        end
      else []
  | _ => collectCandidates candidateOfLine (linesOf stdout) []
  end.

End Parsing.

(** [ports.add(port)] on a set kept in insertion order. *)
Definition setAdd (port : Z) (ports : list Z) : list Z :=
  if existsb (Z.eqb port) ports then ports else ports ++ [port].

(** The loop of [parseListeningPorts] over the matches. *)
Fixpoint collectPorts (matches : list string) (ports : list Z) : list Z :=
  match matches with
  | [] => ports
  | value :: rest =>
      match JS.parseInt value with
      | Some port =>
          if (1024 <? port)%Z && (port <=? 65535)%Z
          then collectPorts rest (setAdd port ports)
          else collectPorts rest ports
      | None => collectPorts rest ports
      end
  end.

(** [array.sort((a, b) => a - b)] *)
Fixpoint insertSorted (x : Z) (l : list Z) : list Z :=
  match l with
  | [] => [x]
  | y :: t => if (x <=? y)%Z then x :: l else y :: insertSorted x t
  end.

Definition sortAscending (l : list Z) : list Z :=
  fold_right insertSorted [] l.

(** [parseListeningPorts(stdout)] *)
Definition parseListeningPorts (stdout : string) : list Z :=
  sortAscending (collectPorts (matchAll portNumber stdout) []).

(** [identifyPorts(pid)]: [None] stands for a port listing that failed. *)
Definition identifyPorts (listing : option string) : list Z :=
  match listing with
  | Some stdout => parseListeningPorts stdout
  | None => []
  end.

Section Probing.

(** [pingPort(port, token)]: whether the probe is answered with 200. *)
Variable pingPort : Z -> string -> bool.

(** [verifyConnection(ports, token)]: the port found, and the ports
    probed on the way, in the order of the probes. *)
Fixpoint verifyConnection (ports : list Z) (token : string)
    : option Z * list Z :=
  match ports with
  | [] => (None, [])
  | port :: rest =>
      if pingPort port token then (Some port, [port])
      else let '(found, probed) := verifyConnection rest token in
           (found, port :: probed)
  end.

End Probing.

Record EnvironmentScanResult : Type := {
  scanExtensionPort : Z;       (* extensionPort *)
  connectPort : Z;
  scanCsrfToken : string       (* csrfToken *)
}.

Section Environment.

Variable platform : Platform.
Variable parseListing : string -> option (list Win32Process).

(** What the machine answers in round [i]: the output of the process
    listing and of the port listing of a process ([None] when the command
    fails or times out), and the answer to a probe. *)
Variable processList : nat -> option string.
Variable portList : nat -> Z -> option string.
Variable pingPort : nat -> Z -> string -> bool.

(** [findProcesses()] *)
Definition findProcesses (i : nat) : list ProcessInfo :=
  match processList i with
  | Some stdout => parseProcessInfo parseListing platform stdout
  | None => []
  end.

(** The loop of [scanEnvironment] over the candidates of one round: the
    result, if a port verified, and the ports probed. *)
Fixpoint tryCandidates (i : nat) (candidates : list ProcessInfo)
    : option EnvironmentScanResult * list Z :=
  match candidates with
  | [] => (None, [])
  | info :: rest =>
      match identifyPorts (portList i (pid info)) with
      | [] => tryCandidates i rest
      | ports =>
          let '(validPort, probed) :=
            verifyConnection (pingPort i) ports (csrfToken info) in
          match validPort with
          | Some (Zpos _ as port) | Some (Zneg _ as port) =>   (* if (validPort) *)
              (Some {| scanExtensionPort := extensionPort info;
                       connectPort := port;
                       scanCsrfToken := csrfToken info |}, probed)
          | _ =>
              let '(found, more) := tryCandidates i rest in
              (found, (probed ++ more)%list)
          end
      end
  end.

(** The rounds of [scanEnvironment] from round [i] on. *)
Fixpoint rounds (remaining i : nat) : option EnvironmentScanResult * list Z :=
  match remaining with
  | O => (None, [])
  | S remaining' =>
      let '(found, probed) := tryCandidates i (findProcesses i) in
      match found with
      | Some r => (Some r, probed)
      | None =>
          let '(later, more) := rounds remaining' (S i) in
          (later, (probed ++ more)%list)
      end
  end.

(** [scanEnvironment(maxAttempts)]: the descriptor, or [None], and every
    port probed on the way. *)
Definition scanEnvironment (maxAttempts : nat)
    : option EnvironmentScanResult * list Z :=
  rounds maxAttempts 0.

End Environment.

End ProcessHunter.

(* ===================================================================== *)
(** ** Sample pages *)
(* ===================================================================== *)

Module Samples.
Import DOM.

(** A visible, enabled button of an action bar. *)
Definition button (text : string) (pre : option string) : Element :=
  {| tagName := "BUTTON"; role := None; className := None;
     ancestors := [Some "actions"; Some "dialog"];
     isContentEditable := false; textContent := text;
     display := "inline-block"; pointerEvents := "auto"; width := 96;
     disabled := false; preview := pre |}.

Definition runCommand : Element := button "Run command" (Some "rm -rf /").
Definition acceptAll : Element := button "Accept all" None.
Definition skipAndRun : Element := button "Skip and Run" None.

(** A styled container that is no button and has no role. *)
Definition styledDiv : Element :=
  {| tagName := "DIV"; role := None; className := Some "action-button primary";
     ancestors := [Some "dialog"];
     isContentEditable := false; textContent := " Accept ";
     display := "block"; pointerEvents := "auto"; width := 120;
     disabled := false; preview := None |}.

(** The text box of the chat panel. *)
Definition chatBox : Element :=
  {| tagName := "TEXTAREA"; role := None; className := None;
     ancestors := [Some "chat-panel"];
     isContentEditable := false; textContent := "";
     display := "block"; pointerEvents := "auto"; width := 300;
     disabled := false; preview := None |}.

Definition page (focus : option Element) (els : list Element) : Document :=
  {| activeElement := focus; elements := els |}.

(** Two lines of [ps -ww -eo pid,ppid,args]: the second process was
    started without a token. *)
Definition serverLine : string :=
  "  991     1 /opt/antigravity/language_server_linux --extension_server_port 40123 --csrf_token 3f2a-77c1 --app_data_dir antigravity".

Definition tokenlessLine : string :=
  "  992     1 /opt/antigravity/language_server_linux --extension_server_port 40124 --app_data_dir antigravity".

Definition processListing : string :=
  serverLine ++ String (ascii_of_N 10) (tokenlessLine ++ String (ascii_of_N 10) EmptyString).

End Samples.

(* ===================================================================== *)
(** ** The vocabulary of the claims *)
(* ===================================================================== *)

Section Vocabulary.
Import DOM SafetyFilter Channel ProcessHunter.

(** The focused element is an input or a textarea. *)
Definition editableField (a : Element) : bool :=
  String.eqb (JS.toLowerCase (tagName a)) "input"
  || String.eqb (JS.toLowerCase (tagName a)) "textarea".

(** The focused element lies inside one of the text, code or chat-input
    widgets the routine knows. *)
Definition insideTextWidget (a : Element) : bool :=
  closest (hasClass "monaco-editor") a
  || closest (classContains "input") a
  || closest (hasClass "ProseMirror") a.

(** A string of white space only, the empty string included. *)
Fixpoint blank (s : string) : bool :=
  match s with
  | EmptyString => true
  | String c t => JS.isSpace c && blank t
  end.

Section Rules.

Variable RegExp : string -> string -> option (string -> bool).

(** The rules by which one entry of the blocklist blocks a command, as the
    code applies them: the entry is compared after case folding and
    trimming, and a delimited entry whose expression does not compile is
    compared whole, delimiters and flags included. *)
Inductive Matches (pattern command : string) : Prop :=
| MatchLiteral :
    delimited pattern = false ->
    JS.trim (JS.toLowerCase pattern) <> EmptyString ->
    JS.includes (JS.toLowerCase command) (JS.trim (JS.toLowerCase pattern)) = true ->
    Matches pattern command
| MatchRegex (regex : string -> bool) :
    delimited pattern = true ->
    RegExp (regexPattern pattern) (regexFlags pattern) = Some regex ->
    regex command = true ->
    Matches pattern command
| MatchFallback :
    delimited pattern = true ->
    RegExp (regexPattern pattern) (regexFlags pattern) = None ->
    JS.includes (JS.toLowerCase command) (JS.trim (JS.toLowerCase pattern)) = true ->
    Matches pattern command.

(** The rules as the claim words them: an undelimited entry is a case-
    insensitive substring; a delimited entry is an expression tested on the
    raw command, or, when it does not compile, its inner text taken as a
    case-insensitive substring. *)
Inductive ClaimedMatch (pattern command : string) : Prop :=
| ClaimedLiteral :
    delimited pattern = false ->
    JS.includes (JS.toLowerCase command) (JS.toLowerCase pattern) = true ->
    ClaimedMatch pattern command
| ClaimedRegex (regex : string -> bool) :
    delimited pattern = true ->
    RegExp (regexPattern pattern) (regexFlags pattern) = Some regex ->
    regex command = true ->
    ClaimedMatch pattern command
| ClaimedFallback :
    delimited pattern = true ->
    RegExp (regexPattern pattern) (regexFlags pattern) = None ->
    JS.includes (JS.toLowerCase command) (JS.toLowerCase (regexPattern pattern)) = true ->
    ClaimedMatch pattern command.

End Rules.

(** What every reachable state satisfies: the calls made are the envelopes
    sent, their ids are positive, increase strictly in the order sent, and
    none exceeds the counter. *)
Record Invariant (st : AutoClicker) : Prop := {
  inv_calls : map callId (calls st) = issued st;
  inv_sorted : StronglySorted Z.lt (issued st);
  inv_bounds : Forall (fun i => (0 < i <= messageId st)%Z) (issued st);
  inv_counter : (0 <= messageId st)%Z
}.

(** The call numbered [i] is pending. *)
Definition pending (st : AutoClicker) (i : Z) : Prop :=
  outcomeOf st i = Some Pending.

(** The range of ports worth probing. *)
Definition inRange (port : Z) : Prop := (1024 < port <= 65535)%Z.

(** The command line lacks the port flag or the token flag. *)
Definition lacksFlag (cmd : string) : Prop :=
  JS.includes cmd "--extension_server_port" = false
  \/ JS.includes cmd "--csrf_token" = false.

(** The command line of a line of [ps]: what follows the two leading
    columns. *)
Definition commandLineOf (line : string) : string :=
  commandOf (JS.splitSpaces (JS.trim line)).

End Vocabulary.

(* ===================================================================== *)
(** ** core/safety-filter.ts: editing the blocklist *)
(* ===================================================================== *)

(** The three editing operations, as functions of the blocklist setting:
    each returns the setting as it stands once [config.set] has been
    awaited, which is what the next [config.get] reads. *)

Module BlocklistEdit.
Import SafetyFilter.

(** [current.includes(pattern)] *)
Definition listed (pattern : string) (current : list string) : bool :=
  existsb (String.eqb pattern) current.

(** [addToBlocklist(pattern)] *)
Definition addToBlocklist (pattern : string) (custom : setting) : setting :=
  let current := getBlocklist custom in
  if negb (listed pattern current) then Some (current ++ [pattern])%list
  else custom.

(** [removeFromBlocklist(pattern)] *)
Definition removeFromBlocklist (pattern : string) (custom : setting) : setting :=
  let current := getBlocklist custom in
  let updated := filter (fun p => negb (String.eqb p pattern)) current in
  Some updated.

(** [resetBlocklist()] *)
Definition resetBlocklist (custom : setting) : setting :=
  Some Constants.DEFAULT_BLOCKLIST.

End BlocklistEdit.

(* ===================================================================== *)
(** ** core/input-guard.ts *)
(* ===================================================================== *)

Module InputGuard.

(** The fields of the guard; [debounceMs] never changes. *)
Record Guard : Type := {
  lastActivityTime : Z;
  isTyping : bool
}.

Definition debounceMs : Z := 500.

(** [new InputGuard()] *)
Definition create : Guard := {| lastActivityTime := 0; isTyping := false |}.

(** [recordActivity()], called when [Date.now()] is [now]. *)
Definition recordActivity (now : Z) (g : Guard) : Guard :=
  {| lastActivityTime := now; isTyping := true |}.

(** [isUserTyping()], called when [Date.now()] is [now]: the guard
    afterwards and the answer. *)
Definition isUserTyping (now : Z) (g : Guard) : Guard * bool :=
  if negb (isTyping g) then (g, false)
  else if (debounceMs <? now - lastActivityTime g)%Z then
    ({| lastActivityTime := lastActivityTime g; isTyping := false |}, false)
  else (g, true).

(** [clearState()] *)
Definition clearState (g : Guard) : Guard :=
  {| lastActivityTime := 0; isTyping := false |}.

(** The calls made on a guard, each with the clock reading it sees. *)
Inductive call : Type :=
| RecordActivity (now : Z)
| IsUserTyping (now : Z)
| ClearState.

(** A sequence of calls: the guard at the end and the answers given, in
    order. *)
Fixpoint calls (g : Guard) (cs : list call) : Guard * list bool :=
  match cs with
  | [] => (g, [])
  | RecordActivity now :: rest => calls (recordActivity now g) rest
  | ClearState :: rest => calls (clearState g) rest
  | IsUserTyping now :: rest =>
      let '(g', answer) := isUserTyping now g in
      let '(g'', answers) := calls g' rest in
      (g'', answer :: answers)
  end.

(** The class names of the second guard. *)
Definition typingClasses : list string :=
  [ "monaco-editor"; "inputarea"; "prosemirror"; "chat-input";
    "message-input"; "contenteditable" ].

(** [isTypingIndicator(tagName, className)] *)
Definition isTypingIndicator (tagName className : string) : bool :=
  let lowerTag := JS.toLowerCase tagName in
  let lowerClass := JS.toLowerCase className in
  if String.eqb lowerTag "input" || String.eqb lowerTag "textarea" then true
  else existsb (fun c => JS.includes lowerClass c) typingClasses.

End InputGuard.

(* ===================================================================== *)
(** ** shared/config.ts *)
(* ===================================================================== *)

(** The settings are what [config.get] returns for each key, [None] for
    undefined.  Numbers are integers. *)

Module Config.

Record Settings : Type := {
  autoAccept_enabled : option bool;
  autoRun_enabled : option bool;
  autoRetry_enabled : option bool;
  multiTab_enabled : option bool;
  quota_refreshInterval : option Z;
  quota_warningThreshold : option Z;
  wake_enabled : option bool;
  wake_startTime : option string;
  wake_endTime : option string;
  wake_workDays : option (list Z);
  safety_blocklist : option (list string)
}.

(** [FreeHandConfig], its groups flattened. *)
Record FreeHandConfig : Type := {
  autoAccept : bool;
  autoRun : bool;
  autoRetry : bool;
  multiTab : bool;
  refreshInterval : Z;
  warningThreshold : Z;
  wakeEnabled : bool;
  startTime : string;
  endTime : string;
  workDays : list Z;
  blocklist : list string
}.

(** [x ?? d] *)
Definition orElse {A : Type} (x : option A) (d : A) : A :=
  match x with Some v => v | None => d end.

(** [getAll()] *)
Definition getAll (s : Settings) : FreeHandConfig :=
  {| autoAccept := orElse (autoAccept_enabled s) true;
     autoRun := orElse (autoRun_enabled s) true;
     autoRetry := orElse (autoRetry_enabled s) true;
     multiTab := orElse (multiTab_enabled s) false;
     refreshInterval := orElse (quota_refreshInterval s) 120%Z;
     warningThreshold := orElse (quota_warningThreshold s) 30%Z;
     wakeEnabled := orElse (wake_enabled s) false;
     startTime := orElse (wake_startTime s) "09:00";
     endTime := orElse (wake_endTime s) "18:00";
     workDays := orElse (wake_workDays s) [1; 2; 3; 4; 5]%Z;
     blocklist := orElse (safety_blocklist s) [] |}.

(** [getRefreshIntervalMs()] *)
Definition getRefreshIntervalMs (s : Settings) : Z :=
  (orElse (quota_refreshInterval s) 120 * 1000)%Z.

(** [set('autoAccept.enabled', v)], and likewise for the two other flags
    the commands write. *)
Definition setAutoAccept (v : bool) (s : Settings) : Settings :=
  {| autoAccept_enabled := Some v;
     autoRun_enabled := autoRun_enabled s;
     autoRetry_enabled := autoRetry_enabled s;
     multiTab_enabled := multiTab_enabled s;
     quota_refreshInterval := quota_refreshInterval s;
     quota_warningThreshold := quota_warningThreshold s;
     wake_enabled := wake_enabled s;
     wake_startTime := wake_startTime s;
     wake_endTime := wake_endTime s;
     wake_workDays := wake_workDays s;
     safety_blocklist := safety_blocklist s |}.

Definition setAutoRun (v : bool) (s : Settings) : Settings :=
  {| autoAccept_enabled := autoAccept_enabled s;
     autoRun_enabled := Some v;
     autoRetry_enabled := autoRetry_enabled s;
     multiTab_enabled := multiTab_enabled s;
     quota_refreshInterval := quota_refreshInterval s;
     quota_warningThreshold := quota_warningThreshold s;
     wake_enabled := wake_enabled s;
     wake_startTime := wake_startTime s;
     wake_endTime := wake_endTime s;
     wake_workDays := wake_workDays s;
     safety_blocklist := safety_blocklist s |}.

Definition setMultiTab (v : bool) (s : Settings) : Settings :=
  {| autoAccept_enabled := autoAccept_enabled s;
     autoRun_enabled := autoRun_enabled s;
     autoRetry_enabled := autoRetry_enabled s;
     multiTab_enabled := Some v;
     quota_refreshInterval := quota_refreshInterval s;
     quota_warningThreshold := quota_warningThreshold s;
     wake_enabled := wake_enabled s;
     wake_startTime := wake_startTime s;
     wake_endTime := wake_endTime s;
     wake_workDays := wake_workDays s;
     safety_blocklist := safety_blocklist s |}.

End Config.

(* ===================================================================== *)
(** ** scheduler/wake-scheduler.ts *)
(* ===================================================================== *)

Module WakeScheduler.

(** A number as the schedule computes with it.  [Outside] marks a string
    whose conversion is not modelled: the model reads runs of at most nine
    decimal digits (white space around them allowed) and the empty string,
    on which the arithmetic below is exact. *)
Inductive number : Type :=
| Num (z : Z)
| NaN
| Outside.

Fixpoint allDigits (s : string) : bool :=
  match s with
  | EmptyString => true
  | String c t => JS.isDigit c && allDigits t
  end.

(** [Number(s)] *)
Definition Number (s : string) : number :=
  match JS.trim s with
  | EmptyString => Num 0
  | t =>
      if allDigits t && Nat.leb (String.length t) 9 then Num (JS.digitsValue 0 t)
      else Outside
  end.

(** [hours * 60 + minutes] *)
Definition minutesOf (hours minutes : number) : number :=
  match hours, minutes with
  | Num h, Num m => Num (h * 60 + m)
  | NaN, _ | _, NaN => NaN
  | _, _ => Outside
  end.

(** [parseTime(timeStr)]: the first two pieces between colons; a missing
    second piece is undefined, which makes the sum NaN. *)
Definition parseTime (timeStr : string) : number :=
  match JS.splitChar ":" timeStr with
  | hours :: minutes :: _ => minutesOf (Number hours) (Number minutes)
  | [hours] => minutesOf (Number hours) NaN
  | [] => NaN
  end.

(** [a >= b] and [a <= b] on numbers: false on NaN, [None] when a side is
    not modelled. *)
Definition geq (a b : number) : option bool :=
  match a, b with
  | Num x, Num y => Some (y <=? x)%Z
  | NaN, _ | _, NaN => Some false
  | _, _ => None
  end.

Definition leq (a b : number) : option bool := geq b a.

(** [x && y], where [y] has been evaluated as well. *)
Definition both (x y : option bool) : option bool :=
  match x, y with
  | Some false, _ => Some false
  | Some true, r => r
  | None, Some false => Some false
  | None, _ => None
  end.

(** What [new Date()] gives the schedule: [getDay()], [getHours()] and
    [getMinutes()]. *)
Record LocalTime : Type := {
  day : Z;
  hours : Z;
  minutes : Z
}.

(** [isWithinWorkHours()]: [None] when the answer hangs on a time that is
    not modelled. *)
Definition isWithinWorkHours (config : Config.FreeHandConfig) (now : LocalTime)
    : option bool :=
  if negb (Config.wakeEnabled config) then Some true
  else
    let currentDay := day now in
    let currentTime := (hours now * 60 + minutes now)%Z in
    if negb (existsb (Z.eqb currentDay) (Config.workDays config)) then Some false
    else
      let startTime := parseTime (Config.startTime config) in
      let endTime := parseTime (Config.endTime config) in
      both (geq (Num currentTime) startTime) (leq (Num currentTime) endTime).

End WakeScheduler.

(* ===================================================================== *)
(** ** view/status-bar.ts and the commands of extension.ts *)
(* ===================================================================== *)

Module StatusBar.

Inductive State : Type := off | on | multi | loading | error.

(** The keys of [ICONS]. *)
Inductive Icon : Type := OFF | ON | MULTI | LOADING | ERROR | WARNING.

(** What the markdown tooltip says: the state, the action a click
    announces, the quota and the three features. *)
Inductive Action : Type := EnableSingleTab | MultiTabMode | Disable.

Inductive Tooltip : Type :=
| NoTooltip
| Message (text : string)
| Markdown (stateText : string) (nextAction : Action) (quota : Z)
    (autoAccept autoRun autoRetry : bool).

Record Controller : Type := {
  state : State;
  text : Icon * string;              (* the icon, then the label *)
  backgroundColor : option string;   (* the theme colour, if any *)
  quotaPercent : Z;
  tooltip : Tooltip
}.

(** The controller once constructed. *)
Definition create : Controller :=
  {| state := off; text := (OFF, EmptyString); backgroundColor := None;
     quotaPercent := 100; tooltip := NoTooltip |}.

(** [updateTooltip()] *)
Definition updateTooltip (cfg : Config.FreeHandConfig) (c : Controller) : Controller :=
  let stateText :=
    match state c with
    | off => "OFF"
    | multi => "ON (Multi-Tab)"
    | _ => "ON (Single Tab)"
    end in
  let nextAction :=
    match state c with
    | off => EnableSingleTab
    | on => MultiTabMode
    | _ => Disable
    end in
  {| state := state c; text := text c; backgroundColor := backgroundColor c;
     quotaPercent := quotaPercent c;
     tooltip := Markdown stateText nextAction (quotaPercent c)
                  (Config.autoAccept cfg) (Config.autoRun cfg) (Config.autoRetry cfg) |}.

(** [update()] *)
Definition update (cfg : Config.FreeHandConfig) (c : Controller) : Controller :=
  let isEnabled := Config.autoAccept cfg || Config.autoRun cfg in
  let isMultiTab := Config.multiTab cfg in
  match state c with
  | loading => c
  | _ =>
      let c' :=
        if negb isEnabled then
          {| state := off; text := (OFF, "OFF"); backgroundColor := None;
             quotaPercent := quotaPercent c; tooltip := tooltip c |}
        else if isMultiTab then
          {| state := multi; text := (MULTI, "Multi");
             backgroundColor := Some "statusBarItem.warningBackground";
             quotaPercent := quotaPercent c; tooltip := tooltip c |}
        else
          {| state := on; text := (ON, "ON"); backgroundColor := None;
             quotaPercent := quotaPercent c; tooltip := tooltip c |} in
      updateTooltip cfg c'
  end.

(** [updateQuota(percent)] *)
Definition updateQuota (cfg : Config.FreeHandConfig) (percent : Z) (c : Controller)
    : Controller :=
  updateTooltip cfg
    {| state := state c; text := text c; backgroundColor := backgroundColor c;
       quotaPercent := percent; tooltip := tooltip c |}.

(** [setLoading()] *)
Definition setLoading (c : Controller) : Controller :=
  {| state := loading; text := (LOADING, "Loading..."); backgroundColor := None;
     quotaPercent := quotaPercent c; tooltip := tooltip c |}.

(** [setError(message)] *)
Definition setError (message : option string) (c : Controller) : Controller :=
  {| state := error; text := (ERROR, "Error");
     backgroundColor := Some "statusBarItem.errorBackground";
     quotaPercent := quotaPercent c;
     tooltip := Message (match message with
                         | Some (String a t) => String a t
                         | _ => "FreeHand encountered an error"
                         end) |}.

End StatusBar.

Module Extension.

(** The settings and the status bar, which listens to every change of the
    settings. *)
Definition World : Type := (Config.Settings * StatusBar.Controller)%type.

(** [await configService.set(key, value)]: the setting is written, then
    the listener of the status bar runs. *)
Definition set (write : Config.Settings -> Config.Settings) (w : World) : World :=
  let s := write (fst w) in
  (s, StatusBar.update (Config.getAll s) (snd w)).

(** The command freehand.cycleState, without the start and stop of the
    clicker it asks for. *)
Definition cycleState (w : World) : World :=
  let cfg := Config.getAll (fst w) in
  let isEnabled := Config.autoAccept cfg || Config.autoRun cfg in
  let isMultiTab := Config.multiTab cfg in
  let w' :=
    if negb isEnabled then
      set (Config.setMultiTab false)
        (set (Config.setAutoRun true) (set (Config.setAutoAccept true) w))
    else if negb isMultiTab then
      set (Config.setMultiTab true) w
    else
      set (Config.setMultiTab false)
        (set (Config.setAutoRun false) (set (Config.setAutoAccept false) w)) in
  (fst w', StatusBar.update (Config.getAll (fst w')) (snd w')).

(** The command freehand.refreshQuota, given the percentage the refresh
    returns. *)
Definition refreshQuota (percentage : Z) (w : World) : World :=
  let bar := StatusBar.setLoading (snd w) in
  let bar := StatusBar.updateQuota (Config.getAll (fst w)) percentage bar in
  (fst w, StatusBar.update (Config.getAll (fst w)) bar).

End Extension.

(* ===================================================================== *)
(** ** Further vocabulary *)
(* ===================================================================== *)

Section FurtherVocabulary.
Import DOM.

(** The element passes every test of the routine built from [blocklist]:
    it is a candidate, [isAcceptButton] accepts it, and the safety gate
    lets it through. *)
Definition passes (blocklist : SafetyFilter.setting) (el : Element) : bool :=
  ClickScript.candidate el
  && ClickScript.isAcceptButton Constants.ACCEPT_PATTERNS Constants.REJECT_PATTERNS el
  && negb (ClickScript.blockedCommand
             (match blocklist with Some l => l | None => [] end) el).

(** The text of the element has run or execute wording. *)
Definition runWording (el : Element) : bool :=
  JS.includes (JS.toLowerCase (JS.trim (textContent el))) "run"
  || JS.includes (JS.toLowerCase (JS.trim (textContent el))) "execute".

(** A blocklist entry that is neither delimited nor blank and carries no
    white space at either end. *)
Definition plain (entry : string) : bool :=
  negb (SafetyFilter.delimited entry)
  && String.eqb (JS.trim entry) entry
  && negb (String.eqb entry EmptyString).



(** The clock readings of a sequence of calls never go back, starting
    from [lo]. *)
Fixpoint steady (lo : Z) (cs : list InputGuard.call) : Prop :=
  match cs with
  | [] => True
  | InputGuard.RecordActivity now :: rest => (lo <= now)%Z /\ steady now rest
  | InputGuard.IsUserTyping now :: rest => (lo <= now)%Z /\ steady now rest
  | InputGuard.ClearState :: rest => steady lo rest
  end.

(** The answers a guard should give: typing iff there was activity since
    the last clearing and the latest was at most [debounceMs] ago.  [last]
    is the time of the latest activity, if any. *)
Fixpoint expectedAnswers (last : option Z) (cs : list InputGuard.call) : list bool :=
  match cs with
  | [] => []
  | InputGuard.RecordActivity now :: rest => expectedAnswers (Some now) rest
  | InputGuard.ClearState :: rest => expectedAnswers None rest
  | InputGuard.IsUserTyping now :: rest =>
      match last with
      | Some t => (now - t <=? InputGuard.debounceMs)%Z
      | None => false
      end :: expectedAnswers last rest
  end.

(** The mode the settings stand for, and the mode a click leads to. *)
Definition mode (cfg : Config.FreeHandConfig) : StatusBar.State :=
  if negb (Config.autoAccept cfg || Config.autoRun cfg) then StatusBar.off
  else if Config.multiTab cfg then StatusBar.multi
  else StatusBar.on.

Definition nextMode (s : StatusBar.State) : StatusBar.State :=
  match s with
  | StatusBar.off => StatusBar.on
  | StatusBar.on => StatusBar.multi
  | _ => StatusBar.off
  end.

(** The commands that touch the status bar, and a run of them. *)
Inductive command : Type :=
| CycleState
| RefreshQuota (percentage : Z).

Definition execute (w : Extension.World) (c : command) : Extension.World :=
  match c with
  | CycleState => Extension.cycleState w
  | RefreshQuota percentage => Extension.refreshQuota percentage w
  end.

(** The ids sent so far are 1, 2, ..., and the counter is their number. *)
Definition consecutive (st : Channel.AutoClicker) : Prop :=
  Channel.issued st = map Z.of_nat (seq 1 (List.length (Channel.wire st)))
  /\ Channel.messageId st = Z.of_nat (List.length (Channel.wire st)).


(** What links a guard to the latest activity, when the clock has reached
    [lo]: either the guard holds that activity, or it has given up on it
    and the activity is too old to count again. *)
Definition tracks (lo : Z) (g : InputGuard.Guard) (last : option Z) : Prop :=
  (InputGuard.isTyping g = true /\ last = Some (InputGuard.lastActivityTime g))
  \/ (InputGuard.isTyping g = false
      /\ match last with
         | Some t => (InputGuard.debounceMs < lo - t)%Z
         | None => True
         end).

(** The bar shows that it is loading. *)
Definition showsLoading (c : StatusBar.Controller) : Prop :=
  StatusBar.state c = StatusBar.loading /\ StatusBar.text c = (StatusBar.LOADING, "Loading...") /\ StatusBar.backgroundColor c = None.

Section Rounds.
Import ProcessHunter.

Variable platform : Platform.
Variable parseListing : string -> option (list Win32Process).
Variable processList : nat -> option string.
Variable portList : nat -> Z -> option string.
Variable pingPort : nat -> Z -> string -> bool.

(** The candidate and port behind a result of one round. *)
Definition verifiedIn (i : nat) (r : EnvironmentScanResult) : Prop :=
  exists info,
    In info (findProcesses platform parseListing processList i)
    /\ scanExtensionPort r = extensionPort info
    /\ scanCsrfToken r = csrfToken info
    /\ In (connectPort r) (identifyPorts (portList i (pid info)))
    /\ pingPort i (connectPort r) (csrfToken info) = true.

(** No port of any candidate of the round answers. *)
Definition nothingAnswers (i : nat) : Prop :=
  forall info port,
    In info (findProcesses platform parseListing processList i) ->
    In port (identifyPorts (portList i (pid info))) ->
    pingPort i port (csrfToken info) = false.

End Rounds.

End FurtherVocabulary.

(* ===================================================================== *)
(** * Properties *)
(* ===================================================================== *)

(** ** The decision routine *)

Section ClickScriptFacts.
Import DOM ClickScript.

Variables ACCEPT REJECT BLOCK : list string.

(** Whatever the loop adds to the log is a candidate it was given that
    passed [isAcceptButton] and was not held back by the blocklist. *)
Lemma clickLoop_log (buttons : list Element) :
  forall (count : Z) (log : list Element) (el : Element),
    In el (snd (clickLoop ACCEPT REJECT BLOCK buttons count log)) ->
    In el log \/
    (In el buttons /\ isAcceptButton ACCEPT REJECT el = true
     /\ blockedCommand BLOCK el = false).
Proof.
  induction buttons as [|btn rest IH]; intros count log el H; simpl in H.
  - now left.
  - destruct (isAcceptButton ACCEPT REJECT btn) eqn:Ha.
    + destruct (blockedCommand BLOCK btn) eqn:Hb.
      * apply IH in H. destruct H as [H | (H & H1 & H2)]; [now left|].
        right. repeat split; auto. now right.
      * apply IH in H. destruct H as [H | (H & H1 & H2)].
        -- apply in_app_or in H. destruct H as [H | [H | []]]; [now left|].
           subst el. right. repeat split; auto. now left.
        -- right. repeat split; auto. now right.
    + apply IH in H. destruct H as [H | (H & H1 & H2)]; [now left|].
      right. repeat split; auto. now right.
Qed.

(** Conversely, a candidate that passes both tests is clicked. *)
Lemma clickLoop_clicks (buttons : list Element) :
  forall (count : Z) (log : list Element) (el : Element),
    (In el log \/
     (In el buttons /\ isAcceptButton ACCEPT REJECT el = true
      /\ blockedCommand BLOCK el = false)) ->
    In el (snd (clickLoop ACCEPT REJECT BLOCK buttons count log)).
Proof.
  induction buttons as [|btn rest IH]; intros count log el H; simpl.
  - destruct H as [H | (H & _)]; [exact H | destruct H].
  - destruct H as [H | (H & H1 & H2)].
    + destruct (isAcceptButton ACCEPT REJECT btn);
        [destruct (blockedCommand BLOCK btn)|]; apply IH; left; auto.
      apply in_or_app. now left.
    + destruct H as [H | H].
      * subst btn. rewrite H1, H2. apply IH. left.
        apply in_or_app. right. now left.
      * destruct (isAcceptButton ACCEPT REJECT btn);
          [destruct (blockedCommand BLOCK btn)|]; apply IH; right; auto.
Qed.

(** The count returned is the number of clicks made. *)
Lemma clickLoop_count (buttons : list Element) :
  forall (count : Z) (log : list Element),
    fst (clickLoop ACCEPT REJECT BLOCK buttons count log)
    = (count + Z.of_nat (List.length
                  (snd (clickLoop ACCEPT REJECT BLOCK buttons count log)))
             - Z.of_nat (List.length log))%Z.
Proof.
  induction buttons as [|btn rest IH]; intros count log; simpl.
  - lia.
  - destruct (isAcceptButton ACCEPT REJECT btn);
      [destruct (blockedCommand BLOCK btn)|]; rewrite IH; try lia.
    rewrite length_app. simpl. lia.
Qed.

(** A reject pattern in the text makes [isAcceptButton] fail, whatever
    else the text holds. *)
Lemma reject_wins (el : Element) (p : string) :
  In p REJECT ->
  JS.includes (normalizedText el) p = true ->
  isAcceptButton ACCEPT REJECT el = false.
Proof.
  intros Hin Hinc. unfold isAcceptButton.
  destruct ((JS.length (normalizedText el) =? 0)%Z
            || (50 <? JS.length (normalizedText el))%Z); [reflexivity|].
  replace (existsb (fun q => JS.includes (normalizedText el) q) REJECT) with true;
    [reflexivity|].
  symmetry. apply existsb_exists. exists p. split; assumption.
Qed.

(** What the routine clicks, when it gets past the typing guard. *)
Lemma routine_clicks (doc : Document) (el : Element) :
  In el (snd (routine ACCEPT REJECT BLOCK doc)) ->
  In el (elements doc) /\ candidate el = true
  /\ isAcceptButton ACCEPT REJECT el = true
  /\ blockedCommand BLOCK el = false.
Proof.
  unfold routine. destruct (isUserTyping doc); [intros []|].
  destruct (clickLoop ACCEPT REJECT BLOCK (querySelectorAll candidate doc) 0 [])
    as [count log] eqn:E.
  simpl. intros H.
  assert (H' : In el (snd (clickLoop ACCEPT REJECT BLOCK
                             (querySelectorAll candidate doc) 0 [])))
    by (rewrite E; exact H).
  apply clickLoop_log in H'. destruct H' as [[] | (H1 & H2 & H3)].
  unfold querySelectorAll in H1. apply filter_In in H1.
  destruct H1 as [H1 H4]. auto.
Qed.

Lemma routine_clicks_all (doc : Document) (el : Element) :
  isUserTyping doc = false ->
  In el (elements doc) -> candidate el = true ->
  isAcceptButton ACCEPT REJECT el = true ->
  blockedCommand BLOCK el = false ->
  In el (snd (routine ACCEPT REJECT BLOCK doc)).
Proof.
  intros Ht Hin Hc Ha Hb. unfold routine. rewrite Ht.
  destruct (clickLoop ACCEPT REJECT BLOCK (querySelectorAll candidate doc) 0 [])
    as [count log] eqn:E.
  change log with (snd (count, log)). rewrite <- E.
  apply clickLoop_clicks. right. repeat split; auto.
  unfold querySelectorAll. apply filter_In. auto.
Qed.

End ClickScriptFacts.

(** *** Claims about the routine [generateClickScript] builds *)

Section DecisionRoutine.
Import DOM ClickScript.

(** C3. An element whose normalized text contains a reject pattern is not
    clicked by the routine, whatever accept patterns the text contains as
    well, whatever the blocklist and whatever the page. *)
Theorem reject_pattern_never_clicked
    (blocklist : SafetyFilter.setting) (doc : Document) (el : Element) (p : string) :
  In p Constants.REJECT_PATTERNS ->
  JS.includes (normalizedText el) p = true ->
  ~ In el (snd (generateClickScript blocklist doc)).
Proof.
  intros Hp Hinc Hclicked.
  apply routine_clicks in Hclicked.
  destruct Hclicked as (_ & _ & Hacc & _).
  rewrite (reject_wins _ _ el p Hp Hinc) in Hacc. discriminate.
Qed.

(** C3, at the button "Skip and Run": its text holds the reject pattern
    "skip" and the accept pattern "run", and it is not clicked. *)
Lemma skip_and_run_never_clicked :
  In "skip" Constants.REJECT_PATTERNS
  /\ JS.includes (normalizedText Samples.skipAndRun) "skip" = true
  /\ existsb (fun q => JS.includes (normalizedText Samples.skipAndRun) q)
       Constants.ACCEPT_PATTERNS = true
  /\ ~ In Samples.skipAndRun
       (snd (generateClickScript None
               (Samples.page None [Samples.acceptAll; Samples.skipAndRun]))).
Proof.
  split; [simpl; auto|].
  split; [reflexivity|].
  split; [reflexivity|].
  apply (reject_pattern_never_clicked None _ Samples.skipAndRun "skip").
  - simpl; auto.
  - reflexivity.
Defined.

(** C5. When the focused element is an input or textarea, is content
    editable, or lies inside a known text widget, the routine returns
    [{ clicked: 0, skipped: 'user typing' }] and clicks nothing, whatever
    elements the page holds. *)
Theorem typing_guard_returns_first
    (blocklist : SafetyFilter.setting) (doc : Document) (a : Element) :
  activeElement doc = Some a ->
  editableField a = true \/ isContentEditable a = true \/ insideTextWidget a = true ->
  generateClickScript blocklist doc
  = ({| clicked := 0; skipped := Some "user typing" |}, []).
Proof.
  intros Hfocus Hcase.
  unfold generateClickScript, routine.
  assert (Ht : isUserTyping doc = true).
  { unfold isUserTyping. rewrite Hfocus.
    unfold editableField, insideTextWidget in Hcase.
    destruct (String.eqb (JS.toLowerCase (tagName a)) "input"
              || String.eqb (JS.toLowerCase (tagName a)) "textarea");
      [reflexivity|].
    destruct (isContentEditable a); [reflexivity|].
    destruct (closest (hasClass "monaco-editor") a); [reflexivity|].
    destruct (closest (classContains "input") a); [reflexivity|].
    destruct (closest (hasClass "ProseMirror") a); [reflexivity|].
    simpl in Hcase. destruct Hcase as [H | [H | H]]; discriminate. }
  rewrite Ht. reflexivity.
Qed.

(** C5, with the focus in the chat text box and two buttons on the page
    that would otherwise be clicked. *)
Lemma typing_guard_on_chat_box :
  editableField Samples.chatBox = true
  /\ fst (generateClickScript None
            (Samples.page None [Samples.acceptAll; Samples.runCommand]))
     = {| clicked := 2; skipped := None |}
  /\ generateClickScript None
       (Samples.page (Some Samples.chatBox) [Samples.acceptAll; Samples.runCommand])
     = ({| clicked := 0; skipped := Some "user typing" |}, []).
Proof.
  split; [reflexivity|].
  split; [reflexivity|].
  apply (typing_guard_returns_first None _ Samples.chatBox).
  - reflexivity.
  - left. reflexivity.
Defined.

(** C6 as stated fails: an element that is no button and has no role, but
    whose class attribute contains "button", is a candidate and is
    clicked. *)
Lemma class_button_is_clicked :
  hasTag "button" Samples.styledDiv = false
  /\ roleIs "button" Samples.styledDiv = false
  /\ generateClickScript None (Samples.page None [Samples.styledDiv])
     = ({| clicked := 1; skipped := None |}, [Samples.styledDiv]).
Proof.
  split; [reflexivity|].
  split; [reflexivity|].
  reflexivity.
Qed.

(** C6, amended. The candidates are exactly the elements of the page that
    are buttons, carry role="button", or have a class attribute containing
    "button"; an element clicked by the routine is one of them, so an
    element of none of the three kinds is never clicked. *)
Theorem candidates_are_three_selectors
    (blocklist : SafetyFilter.setting) (doc : Document) (el : Element) :
  (In el (querySelectorAll candidate doc) <->
   In el (elements doc)
   /\ (hasTag "button" el = true \/ roleIs "button" el = true
       \/ classContains "button" (className el) = true))
  /\ (In el (snd (generateClickScript blocklist doc)) ->
      In el (querySelectorAll candidate doc)).
Proof.
  assert (Hc : candidate el = true <->
               hasTag "button" el = true \/ roleIs "button" el = true
               \/ classContains "button" (className el) = true).
  { unfold candidate. rewrite !orb_true_iff. tauto. }
  split.
  - unfold querySelectorAll. rewrite filter_In. rewrite Hc. tauto.
  - intros H. apply routine_clicks in H. destruct H as (Hin & Hcand & _).
    unfold querySelectorAll. apply filter_In. auto.
Qed.

(** C1, on the code. With the blocklist setting empty, [getBlocklist] gives
    the default list, but the routine is built from the setting itself: the
    Run button next to "rm -rf /" is clicked along with the other button.
    Built from the list [getBlocklist] returns, the routine skips it and
    still clicks the other one. *)
Theorem empty_setting_clicks_blocked_command :
  SafetyFilter.getBlocklist (Some []) = Constants.DEFAULT_BLOCKLIST
  /\ generateClickScript (Some [])
       (Samples.page None [Samples.runCommand; Samples.acceptAll])
     = ({| clicked := 2; skipped := None |}, [Samples.runCommand; Samples.acceptAll])
  /\ generateClickScript None
       (Samples.page None [Samples.runCommand; Samples.acceptAll])
     = ({| clicked := 2; skipped := None |}, [Samples.runCommand; Samples.acceptAll])
  /\ generateClickScript (Some (SafetyFilter.getBlocklist (Some [])))
       (Samples.page None [Samples.runCommand; Samples.acceptAll])
     = ({| clicked := 1; skipped := None |}, [Samples.acceptAll]).
Proof.
  repeat split; reflexivity.
Qed.

End DecisionRoutine.

(** ** Strings *)

Section StringFacts.

Lemma lowerChar_space (c : ascii) : JS.isSpace c = true -> JS.lowerChar c = c.
Proof.
  destruct c as [[] [] [] [] [] [] [] []]; intros H; try discriminate H; reflexivity.
Qed.

Lemma lowerChar_not_space (c : ascii) :
  JS.isSpace c = false -> JS.isSpace (JS.lowerChar c) = false.
Proof.
  destruct c as [[] [] [] [] [] [] [] []]; intros H; try discriminate H; reflexivity.
Qed.

Lemma blank_toLowerCase (s : string) : blank s = true -> JS.toLowerCase s = s.
Proof.
  induction s as [|c t IH]; simpl; intros H; [reflexivity|].
  apply andb_true_iff in H. destruct H as [Hc Ht].
  rewrite (lowerChar_space c Hc), (IH Ht). reflexivity.
Qed.

Lemma blank_trimStart (s : string) : blank s = true -> JS.trimStart s = EmptyString.
Proof.
  induction s as [|c t IH]; simpl; intros H; [reflexivity|].
  apply andb_true_iff in H. destruct H as [Hc Ht].
  rewrite Hc. auto.
Qed.

Lemma blank_trim (s : string) :
  blank s = true -> JS.trim (JS.toLowerCase s) = EmptyString.
Proof.
  intros H. rewrite (blank_toLowerCase s H). unfold JS.trim.
  rewrite (blank_trimStart s H). reflexivity.
Qed.

Lemma trimEnd_empty (s : string) : JS.trimEnd s = EmptyString -> blank s = true.
Proof.
  induction s as [|c t IH]; simpl; intros H; [reflexivity|].
  destruct (JS.trimEnd t) eqn:E; [|discriminate H].
  destruct (JS.isSpace c); [|discriminate H]. simpl. auto.
Qed.

Lemma trimStart_blank (s : string) : blank (JS.trimStart s) = true -> blank s = true.
Proof.
  induction s as [|c t IH]; simpl; intros H; [reflexivity|].
  destruct (JS.isSpace c) eqn:E; simpl; auto.
  simpl in H. rewrite E in H. discriminate H.
Qed.

Lemma toLowerCase_blank (s : string) : blank (JS.toLowerCase s) = true -> blank s = true.
Proof.
  induction s as [|c t IH]; simpl; intros H; [reflexivity|].
  apply andb_true_iff in H. destruct H as [Hc Ht].
  rewrite (IH Ht), andb_true_r.
  destruct (JS.isSpace c) eqn:E; [reflexivity|].
  rewrite (lowerChar_not_space c E) in Hc. discriminate Hc.
Qed.

(** The entries [isBlocked] passes over are exactly the blank ones. *)
Lemma trim_empty_iff (s : string) :
  JS.trim (JS.toLowerCase s) = EmptyString <-> blank s = true.
Proof.
  split; [|apply blank_trim].
  unfold JS.trim. intros H.
  apply toLowerCase_blank, trimStart_blank, trimEnd_empty, H.
Qed.

Lemma startsWith_toLowerCase (p : string) :
  forall s, JS.startsWith s p = true ->
            JS.startsWith (JS.toLowerCase s) (JS.toLowerCase p) = true.
Proof.
  induction p as [|a p IH]; intros [|b s]; simpl; auto.
  intros H. apply andb_true_iff in H. destruct H as [Hab Hs].
  apply Ascii.eqb_eq in Hab. subst b.
  rewrite Ascii.eqb_refl. simpl. auto.
Qed.

Lemma includes_toLowerCase (s p : string) :
  JS.includes s p = true ->
  JS.includes (JS.toLowerCase s) (JS.toLowerCase p) = true.
Proof.
  induction s as [|b s IH]; cbn [JS.includes JS.toLowerCase]; intros H.
  - rewrite orb_false_r in *.
    apply (startsWith_toLowerCase p EmptyString H).
  - apply orb_true_iff in H. destruct H as [H | H].
    + apply (startsWith_toLowerCase p (String b s)) in H.
      cbn [JS.toLowerCase] in H. rewrite H. reflexivity.
    + rewrite (IH H). apply orb_true_r.
Qed.

End StringFacts.

(** *** The safety gate of the routine *)

Section SafetyGate.
Import DOM ClickScript.

Variables ACCEPT REJECT BLOCK : list string.

(** A button with run or execute wording whose preview contains an entry
    of the list written into the routine is not clicked. *)
Lemma blocked_preview_not_clicked
    (doc : Document) (btn : Element) (pre pattern : string) :
  In pattern BLOCK ->
  JS.includes (JS.toLowerCase (JS.trim (textContent btn))) "run" = true
  \/ JS.includes (JS.toLowerCase (JS.trim (textContent btn))) "execute" = true ->
  preview btn = Some pre ->
  JS.includes pre pattern = true ->
  ~ In btn (snd (routine ACCEPT REJECT BLOCK doc)).
Proof.
  intros Hin Hword Hpre Hinc Hclicked.
  apply routine_clicks in Hclicked. destruct Hclicked as (_ & _ & _ & Hb).
  assert (Hblocked : blockedCommand BLOCK btn = true).
  { unfold blockedCommand.
    replace (JS.includes (JS.toLowerCase (JS.trim (textContent btn))) "run"
             || JS.includes (JS.toLowerCase (JS.trim (textContent btn))) "execute")
      with true
      by (symmetry; apply orb_true_iff; exact Hword).
    rewrite Hpre. unfold isCommandBlocked. apply existsb_exists.
    exists pattern. split; [exact Hin|]. apply includes_toLowerCase, Hinc. }
  congruence.
Qed.

End SafetyGate.

(** ** The safety filter *)

Section SafetyFilterFacts.
Import SafetyFilter.

Variable RegExp : string -> string -> option (string -> bool).

Lemma scan_cons (pattern : string) (rest : list string) (lc c : string) :
  scan RegExp (pattern :: rest) lc c
  = scan RegExp [pattern] lc c || scan RegExp rest lc c.
Proof.
  simpl.
  destruct (JS.trim (JS.toLowerCase pattern)); [reflexivity|].
  destruct (delimited pattern).
  - destruct (RegExp (regexPattern pattern) (regexFlags pattern)) as [regex|].
    + destruct (regex c); reflexivity.
    + destruct (JS.includes lc _); reflexivity.
  - destruct (JS.includes lc _); reflexivity.
Qed.

Lemma scan_app (l1 l2 : list string) (lc c : string) :
  scan RegExp (l1 ++ l2) lc c = scan RegExp l1 lc c || scan RegExp l2 lc c.
Proof.
  induction l1 as [|p l1 IH]; [reflexivity|].
  rewrite <- app_comm_cons, scan_cons, IH, (scan_cons p l1).
  apply orb_assoc.
Qed.

Lemma scan_exists (l : list string) (lc c : string) :
  scan RegExp l lc c = true <->
  exists pattern, In pattern l /\ scan RegExp [pattern] lc c = true.
Proof.
  induction l as [|p l IH].
  - simpl. split; [discriminate | intros (q & [] & _)].
  - rewrite scan_cons, orb_true_iff, IH. split.
    + intros [H | (q & Hq & H)].
      * exists p. split; [now left | exact H].
      * exists q. split; [now right | exact H].
    + intros (q & [Hq | Hq] & H).
      * subst q. now left.
      * right. exists q. auto.
Qed.

(** A blank entry blocks nothing. *)
Lemma scan_blank (pattern lc c : string) :
  blank pattern = true -> scan RegExp [pattern] lc c = false.
Proof.
  intros H. simpl. rewrite (blank_trim pattern H). reflexivity.
Qed.

Lemma delimited_not_blank (pattern : string) :
  delimited pattern = true -> JS.trim (JS.toLowerCase pattern) <> EmptyString.
Proof.
  intros H E. apply trim_empty_iff in E.
  unfold delimited in H. apply andb_true_iff in H. destruct H as [H _].
  destruct pattern as [|a t]; [discriminate H|].
  cbn [JS.startsWith] in H. apply andb_true_iff in H. destruct H as [H _].
  apply Ascii.eqb_eq in H. subst a.
  simpl in E. discriminate E.
Qed.

Lemma scan_one (pattern command : string) :
  scan RegExp [pattern] (JS.toLowerCase command) command = true
  <-> Matches RegExp pattern command.
Proof.
  simpl. split.
  - destruct (JS.trim (JS.toLowerCase pattern)) as [|a t] eqn:E; [discriminate|].
    destruct (delimited pattern) eqn:D.
    + destruct (RegExp (regexPattern pattern) (regexFlags pattern)) as [regex|] eqn:R.
      * destruct (regex command) eqn:T; [|discriminate].
        intros _. now apply (MatchRegex _ _ _ regex).
      * destruct (JS.includes (JS.toLowerCase command) (String a t)) eqn:I;
          [|discriminate].
        intros _. apply MatchFallback; auto. now rewrite E.
    + destruct (JS.includes (JS.toLowerCase command) (String a t)) eqn:I;
        [|discriminate].
      intros _. apply MatchLiteral; auto; rewrite E; [discriminate | exact I].
  - intros [D N I | regex D R T | D R I].
    + rewrite D.
      destruct (JS.trim (JS.toLowerCase pattern)); [contradiction|].
      rewrite I. reflexivity.
    + pose proof (delimited_not_blank pattern D) as N.
      rewrite D, R, T.
      destruct (JS.trim (JS.toLowerCase pattern)); [contradiction|reflexivity].
    + pose proof (delimited_not_blank pattern D) as N.
      rewrite D, R.
      destruct (JS.trim (JS.toLowerCase pattern)); [contradiction|].
      rewrite I. reflexivity.
Qed.

End SafetyFilterFacts.

(** *** Entries written /pattern/flags *)

Section Delimiters.
Import SafetyFilter.

Lemma lastIndexOfFrom_absent (c : ascii) (s : string) :
  forall i found, JSRegExp.mem c s = false -> JS.lastIndexOfFrom i c s found = found.
Proof.
  induction s as [|a t IH]; simpl; intros i found H; [reflexivity|].
  apply orb_false_iff in H. destruct H as [Ha Ht].
  rewrite Ha. apply IH, Ht.
Qed.

Lemma lastIndexOfFrom_last (c : ascii) (s1 s2 : string) :
  forall i found,
    JSRegExp.mem c s2 = false ->
    JS.lastIndexOfFrom i c (s1 ++ String c s2) found
    = (i + Z.of_nat (String.length s1))%Z.
Proof.
  induction s1 as [|a t IH]; simpl; intros i found H.
  - rewrite Ascii.eqb_refl, lastIndexOfFrom_absent by exact H. lia.
  - rewrite IH by exact H. lia.
Qed.

Lemma substring_prefix (s1 s2 : string) :
  String.substring 0 (String.length s1) (s1 ++ s2) = s1.
Proof.
  induction s1 as [|a t IH]; simpl.
  - destruct s2; reflexivity.
  - now rewrite IH.
Qed.

Lemma substring_whole (s : string) : String.substring 0 (String.length s) s = s.
Proof.
  induction s as [|a t IH]; simpl; [reflexivity | now rewrite IH].
Qed.

Lemma substring_skip (s1 s2 : string) (n : nat) :
  String.substring (String.length s1) n (s1 ++ s2) = String.substring 0 n s2.
Proof.
  induction s1 as [|a t IH]; simpl; [reflexivity | exact IH].
Qed.

Lemma length_append (s1 s2 : string) :
  String.length (s1 ++ s2) = (String.length s1 + String.length s2)%nat.
Proof.
  induction s1 as [|a t IH]; simpl; [reflexivity | now rewrite IH].
Qed.

(** X25. An entry written [/body/flags], with no slash among the flags, is
    delimited; the expression compiled is [body], with the flags given, or
    with [i] when none is. *)
Lemma delimited_shape (body flagText : string) :
  JSRegExp.mem "/" flagText = false ->
  let pattern := String "/" (body ++ String "/" flagText) in
  delimited pattern = true
  /\ regexPattern pattern = body
  /\ regexFlags pattern
     = match flagText with EmptyString => "i" | _ => flagText end.
Proof.
  intros H pattern.
  assert (L : JS.lastIndexOf pattern "/" = (1 + Z.of_nat (String.length body))%Z).
  { unfold JS.lastIndexOf, pattern.
    change (String "/" (body ++ String "/" flagText))
      with ((String "/" body) ++ String "/" flagText).
    rewrite lastIndexOfFrom_last by exact H. simpl String.length. lia. }
  assert (Len : JS.length pattern
                = (2 + Z.of_nat (String.length body)
                   + Z.of_nat (String.length flagText))%Z).
  { unfold JS.length, pattern. simpl String.length.
    rewrite length_append. simpl String.length. lia. }
  split; [|split].
  - unfold delimited. rewrite L.
    apply andb_true_iff. split; [|apply Z.ltb_lt; lia].
    unfold pattern. cbn [JS.startsWith]. now destruct (body ++ String "/" flagText).
  - unfold regexPattern, JS.substring, JS.clamp. rewrite L, Len.
    replace (Z.to_nat (Z.min (Z.max 1 0) _)) with 1%nat by lia.
    replace (Z.to_nat (Z.min (Z.max (1 + Z.of_nat (String.length body)) 0) _))
      with (S (String.length body)) by lia.
    replace (Nat.min 1 (S (String.length body))) with 1%nat by lia.
    replace (Nat.max 1 (S (String.length body)) - 1)%nat
      with (String.length body) by lia.
    unfold pattern. simpl. apply substring_prefix.
  - unfold regexFlags, JS.substringFrom, JS.substring, JS.clamp. rewrite L, Len.
    replace (Z.to_nat (Z.min (Z.max (1 + Z.of_nat (String.length body) + 1) 0) _))
      with (String.length (String "/" body ++ "/")).
    2:{ rewrite length_append. simpl String.length. lia. }
    replace (Z.to_nat (Z.min (Z.max (2 + Z.of_nat (String.length body)
                                     + Z.of_nat (String.length flagText)) 0) _))
      with (String.length (String "/" body ++ "/") + String.length flagText)%nat.
    2:{ rewrite length_append. simpl String.length. lia. }
    rewrite Nat.min_l, Nat.max_r by lia.
    replace (String.length (String "/" body ++ "/") + String.length flagText
             - String.length (String "/" body ++ "/"))%nat
      with (String.length flagText) by lia.
    replace pattern with ((String "/" body ++ "/") ++ flagText).
    2:{ unfold pattern. simpl. f_equal.
        clear. induction body as [|a t IH]; simpl; [reflexivity | now rewrite IH]. }
    rewrite substring_skip, substring_whole. now destruct flagText.
Qed.

End Delimiters.

(** *** Claims about [isBlocked] *)

Section SafetyFilterClaims.
Import SafetyFilter.

(** C4 as stated fails on the fallback: the entry [/rm -rf/x] does not
    compile (x is no flag), its inner text "rm -rf" is a substring of the
    command, so the claim's rules block the command; the code compares the
    whole entry, slashes and flag included, and does not. *)
Lemma fallback_compares_whole_entry :
  ClaimedMatch JSRegExp.newRegExp "/rm -rf/x" "rm -rf build"
  /\ JSRegExp.newRegExp "rm -rf" "x" = None
  /\ isBlocked JSRegExp.newRegExp (Some ["/rm -rf/x"]) "rm -rf build" = false.
Proof.
  split; [|split; reflexivity].
  apply ClaimedFallback; reflexivity.
Qed.

(** The claim's rule for undelimited entries fails as well where the code
    trims: the entry "sudo " blocks the command "sudo", of which it is no
    substring. *)
Lemma literal_entries_are_trimmed :
  isBlocked JSRegExp.newRegExp (Some ["sudo "]) "sudo" = true
  /\ JS.includes (JS.toLowerCase "sudo") (JS.toLowerCase "sudo ") = false.
Proof. split; reflexivity. Qed.

(** C4, amended. [isBlocked] returns true iff some entry of the active
    blocklist matches, where: an entry that is blank is passed over; an
    undelimited entry matches when, case-folded and trimmed, it is a
    substring of the case-folded command; a delimited entry whose
    expression compiles (with the flags given, [i] when none is) matches
    when the expression matches the raw command; a delimited entry whose
    expression does not compile matches when the whole entry, case-folded
    and trimmed, is a substring of the case-folded command.  With the
    blocklist ["rm -rf"], the command "RM -RF /tmp" is blocked. *)
Theorem isBlocked_iff_some_entry_matches :
  (forall (RegExp : string -> string -> option (string -> bool))
          (custom : setting) (command : string),
      isBlocked RegExp custom command = true <->
      exists pattern,
        In pattern (getBlocklist custom) /\ Matches RegExp pattern command)
  /\ (forall RegExp : string -> string -> option (string -> bool),
         isBlocked RegExp (Some ["rm -rf"]) "RM -RF /tmp" = true).
Proof.
  split.
  - intros RegExp custom command. unfold isBlocked.
    rewrite scan_exists. split; intros (pattern & Hin & H); exists pattern;
      (split; [exact Hin|]); apply scan_one; exact H.
  - intros RegExp. reflexivity.
Qed.

(** C10. A blank entry (empty, or white space only) is passed over before
    any matching: alone it blocks no command, and the verdict of
    [isBlocked] on a blocklist that holds it is the verdict of the scan of
    the list without it. *)
Theorem blank_entry_is_skipped
    (RegExp : string -> string -> option (string -> bool))
    (custom : setting) (before after : list string) (entry command : string) :
  blank entry = true ->
  getBlocklist custom = (before ++ entry :: after)%list ->
  scan RegExp [entry] (JS.toLowerCase command) command = false
  /\ isBlocked RegExp custom command
     = scan RegExp (before ++ after) (JS.toLowerCase command) command.
Proof.
  intros Hblank Hlist. split.
  - apply scan_blank, Hblank.
  - unfold isBlocked. rewrite Hlist.
    rewrite !scan_app, (scan_cons RegExp entry after).
    rewrite (scan_blank RegExp entry _ _ Hblank). reflexivity.
Qed.

(** C10, at a blocklist with a white-space entry in front: the entry does
    not block "ls", although the empty string and the space are substrings
    to be found in many commands. *)
Lemma blank_entry_is_skipped_example :
  blank "  " = true
  /\ getBlocklist (Some ["  "; "rm -rf"]) = ([] ++ "  " :: ["rm -rf"])%list
  /\ JS.includes "ls  -l" "  " = true
  /\ (scan JSRegExp.newRegExp ["  "] (JS.toLowerCase "ls  -l") "ls  -l" = false
      /\ isBlocked JSRegExp.newRegExp (Some ["  "; "rm -rf"]) "ls  -l"
         = scan JSRegExp.newRegExp ([] ++ ["rm -rf"]) (JS.toLowerCase "ls  -l") "ls  -l").
Proof.
  split; [reflexivity|].
  split; [reflexivity|].
  split; [reflexivity|].
  apply (blank_entry_is_skipped JSRegExp.newRegExp
           (Some ["  "; "rm -rf"]) [] ["rm -rf"] "  " "ls  -l");
    reflexivity.
Defined.

End SafetyFilterClaims.

(** ** The control channel *)

Section ChannelFacts.
Import Channel.

Lemma StronglySorted_snoc (l : list Z) (x : Z) :
  StronglySorted Z.lt l -> Forall (fun i => (i < x)%Z) l ->
  StronglySorted Z.lt (l ++ [x]).
Proof.
  induction l as [|a l IH]; intros Hs Hf; simpl.
  - constructor; constructor.
  - inversion Hs as [|? ? Hs' Ha]; subst. inversion Hf as [|? ? Hax Hf']; subst.
    constructor; [auto|].
    apply Forall_app. split; [exact Ha | constructor; [exact Hax | constructor]].
Qed.

Lemma handler_callId (k : nat) (r : Response) (c : Call) :
  callId (handler k r c) = callId c.
Proof.
  unfold handler. destruct (settled c); try reflexivity.
  destruct (Nat.eqb (socket c) k && (responseId r =? callId c)%Z); reflexivity.
Qed.

Lemma invariant_init : Invariant init.
Proof.
  constructor; simpl; try constructor; lia.
Qed.

Lemma invariant_sendCDP (st : AutoClicker) (m : string) (p : option string) :
  Invariant st -> Invariant (fst (sendCDP st m p)).
Proof.
  intros [Hc Hs Hb Hn]. unfold sendCDP.
  destruct (ws st) as [k|]; [|constructor; assumption].
  destruct (stateOf st k); try (constructor; assumption).
  constructor; unfold issued in *; simpl.
  - rewrite !map_app, Hc. reflexivity.
  - rewrite map_app. apply StronglySorted_snoc; [exact Hs|].
    eapply Forall_impl; [|exact Hb]. simpl. intros; lia.
  - rewrite map_app. apply Forall_app. split.
    + eapply Forall_impl; [|exact Hb]. simpl. intros; lia.
    + constructor; [simpl; lia | constructor].
  - lia.
Qed.

Lemma invariant_step (st : AutoClicker) (e : event) :
  Invariant st -> Invariant (step st e).
Proof.
  intros H. destruct e as [|m p|k r|k| |ms]; simpl.
  - destruct H. constructor; assumption.
  - apply invariant_sendCDP, H.
  - unfold onMessage. destruct (stateOf st k); try exact H.
    destruct H as [Hc Hs Hb Hn]. constructor; unfold issued in *; simpl; auto.
    rewrite map_map. rewrite <- Hc. apply map_ext. apply handler_callId.
  - destruct H. constructor; assumption.
  - unfold disconnect. destruct (ws st); [|exact H].
    destruct H. constructor; assumption.
  - exact H.
Qed.

Lemma invariant_run (evs : list event) :
  forall st, Invariant st -> Invariant (run st evs).
Proof.
  induction evs as [|e evs IH]; intros st H; simpl; [exact H|].
  apply IH, invariant_step, H.
Qed.

(** What [sendCDP] does when it sends. *)
Lemma sendCDP_sends (st st' : AutoClicker) (m : string) (p : option string) (i : Z) :
  sendCDP st m p = (st', Some i) ->
  exists k,
    ws st = Some k /\ stateOf st k = OPEN /\ i = (messageId st + 1)%Z
    /\ calls st' = (calls st ++ [ {| callId := i; socket := k; settled := Pending |} ])%list
    /\ ws st' = ws st /\ sockets st' = sockets st.
Proof.
  unfold sendCDP. destruct (ws st) as [k|]; [|discriminate].
  destruct (stateOf st k) eqn:E; try discriminate.
  intros H. inversion H; subst. exists k. simpl. auto 10.
Qed.

Lemma find_app_none {A : Type} (f : A -> bool) (l1 l2 : list A) :
  find f l1 = None -> find f (l1 ++ l2) = find f l2.
Proof.
  induction l1 as [|a l1 IH]; simpl; [reflexivity|].
  destruct (f a); [discriminate | exact IH].
Qed.

Lemma find_app_some {A : Type} (f : A -> bool) (l1 l2 : list A) (x : A) :
  find f l1 = Some x -> find f (l1 ++ l2) = Some x.
Proof.
  induction l1 as [|a l1 IH]; simpl; [discriminate|].
  destruct (f a); [auto | exact IH].
Qed.

Lemma find_fresh (l : list Call) (i : Z) :
  Forall (fun j => (j < i)%Z) (map callId l) ->
  find (fun c => (callId c =? i)%Z) l = None.
Proof.
  induction l as [|c l IH]; simpl; intros H; [reflexivity|].
  inversion H as [|? ? Hc Hl]; subst.
  destruct (callId c =? i)%Z eqn:E; [apply Z.eqb_eq in E; lia | auto].
Qed.

Lemma pending_after_send (st st' : AutoClicker) (m : string) (p : option string) (i : Z) :
  Invariant st -> sendCDP st m p = (st', Some i) -> pending st' i.
Proof.
  intros [Hc Hs Hb Hn] H. apply sendCDP_sends in H.
  destruct H as (k & _ & _ & Hi & Hcalls & _).
  unfold pending, outcomeOf. rewrite Hcalls.
  rewrite find_app_none.
  - simpl. rewrite Z.eqb_refl. reflexivity.
  - apply find_fresh. rewrite Hc.
    eapply Forall_impl; [|exact Hb]. simpl. intros; lia.
Qed.

Lemma find_handler (k : nat) (r : Response) (i : Z) (l : list Call) :
  responseId r <> i ->
  find (fun c => (callId c =? i)%Z) (map (handler k r) l)
  = find (fun c => (callId c =? i)%Z) l.
Proof.
  intros Hne. induction l as [|c l IH]; simpl; [reflexivity|].
  rewrite handler_callId.
  destruct (callId c =? i)%Z eqn:E; [|exact IH].
  apply Z.eqb_eq in E. unfold handler.
  destruct (settled c); try reflexivity.
  replace (responseId r =? callId c)%Z with false.
  - rewrite andb_false_r. reflexivity.
  - symmetry. apply Z.eqb_neq. congruence.
Qed.

(** A pending call stays pending through everything but a message that
    carries its id. *)
Lemma pending_step (st : AutoClicker) (e : event) (i : Z) :
  match e with Message _ r => responseId r <> i | _ => True end ->
  pending st i -> pending (step st e) i.
Proof.
  unfold pending, outcomeOf. intros He H.
  destruct e as [|m p|k r|k| |ms]; simpl; try exact H.
  - unfold sendCDP. destruct (ws st) as [k|]; [|exact H].
    destruct (stateOf st k); try exact H. simpl.
    destruct (find (fun c => (callId c =? i)%Z) (calls st)) as [c|] eqn:F;
      [|discriminate H].
    rewrite (find_app_some _ _ _ c F). exact H.
  - unfold onMessage. destruct (stateOf st k); try exact H. simpl.
    rewrite find_handler by exact He. exact H.
  - unfold disconnect. destruct (ws st); exact H.
Qed.

Lemma pending_run (evs : list event) (i : Z) :
  unanswered i evs -> forall st, pending st i -> pending (run st evs) i.
Proof.
  induction 1 as [|e evs He _ IH]; intros st H; simpl; [exact H|].
  apply IH, pending_step; assumption.
Qed.

Lemma run_ticks (durations : list Z) (st : AutoClicker) :
  run st (map Tick durations) = st.
Proof.
  induction durations as [|d ds IH]; simpl; [reflexivity | exact IH].
Qed.

End ChannelFacts.

(** *** Claims about [sendCDP] *)

Section ChannelClaims.
Import Channel.

(** C2 as stated fails: a call that gets no response is still pending,
    not rejected, after a day has passed. *)
Lemma no_timeout_after_a_day :
  outcomeOf
    (run init [Connect; Send "Runtime.evaluate" None; Tick 86400000]) 1
  = Some Pending.
Proof. reflexivity. Qed.

(** C2, amended. A call sent by [sendCDP] carries no timeout: as long as
    no message with its id arrives it stays pending, neither resolved nor
    rejected, whatever else happens and however much time passes; and the
    passing of time alone changes nothing, so it closes no channel. *)
Theorem call_without_response_stays_pending
    (history later : list event) (m : string) (p : option string)
    (st : AutoClicker) (i : Z) :
  sendCDP (run init history) m p = (st, Some i) ->
  unanswered i later ->
  outcomeOf (run st later) i = Some Pending
  /\ (forall durations : list Z, run st (map Tick durations) = st).
Proof.
  intros Hsend Hlater. split.
  - apply pending_run; [exact Hlater|].
    eapply pending_after_send; [|exact Hsend].
    apply invariant_run, invariant_init.
  - intros durations. apply run_ticks.
Qed.

(** C2, amended, on a channel where another call is answered meanwhile. *)
Lemma call_without_response_example :
  sendCDP (run init [Connect; Send "Runtime.enable" None]) "Runtime.evaluate" None
  = ({| ws := Some 0%nat; sockets := [OPEN]; messageId := 2;
        calls := [ {| callId := 1; socket := 0; settled := Pending |};
                   {| callId := 2; socket := 0; settled := Pending |} ];
        wire := [ (0%nat, {| id := 1; method := "Runtime.enable"; params := None |});
                  (0%nat, {| id := 2; method := "Runtime.evaluate"; params := None |}) ] |},
     Some 2%Z)
  /\ unanswered 2
       [Tick 30000; Message 0 {| responseId := 1; error := None; result := "{}" |};
        Tick 3600000]
  /\ outcomeOf
       (run (fst (sendCDP (run init [Connect; Send "Runtime.enable" None])
                    "Runtime.evaluate" None))
          [Tick 30000; Message 0 {| responseId := 1; error := None; result := "{}" |};
           Tick 3600000]) 1
     = Some (Resolved "{}")
  /\ (outcomeOf
        (run (fst (sendCDP (run init [Connect; Send "Runtime.enable" None])
                     "Runtime.evaluate" None))
           [Tick 30000; Message 0 {| responseId := 1; error := None; result := "{}" |};
            Tick 3600000]) 2
      = Some Pending
      /\ (forall durations : list Z,
             run (fst (sendCDP (run init [Connect; Send "Runtime.enable" None])
                         "Runtime.evaluate" None))
               (map Tick durations)
             = fst (sendCDP (run init [Connect; Send "Runtime.enable" None])
                      "Runtime.evaluate" None))).
Proof.
  split; [reflexivity|].
  split; [repeat constructor; simpl; lia|].
  split; [reflexivity|].
  apply (call_without_response_stays_pending
           [Connect; Send "Runtime.enable" None]
           [Tick 30000; Message 0 {| responseId := 1; error := None; result := "{}" |};
            Tick 3600000]
           "Runtime.evaluate" None).
  - reflexivity.
  - repeat constructor; simpl; lia.
Defined.

(** C9. Over any history of one [AutoClicker], the ids of the envelopes
    sent are positive and strictly increasing in the order sent, and the id
    [sendCDP] gives to a new envelope is above the id of every call made so
    far, pending or settled. *)
Theorem request_ids_strictly_increase (history : list event) :
  StronglySorted Z.lt (issued (run init history))
  /\ Forall (fun i => (0 < i)%Z) (issued (run init history))
  /\ (forall (m : string) (p : option string),
         match snd (sendCDP (run init history) m p) with
         | Some i =>
             i = (messageId (run init history) + 1)%Z
             /\ Forall (fun c => (callId c < i)%Z) (calls (run init history))
             /\ Forall (fun j => (j < i)%Z) (issued (run init history))
         | None => True
         end).
Proof.
  pose proof (invariant_run history init invariant_init) as [Hc Hs Hb Hn].
  split; [exact Hs|]. split.
  - eapply Forall_impl; [|exact Hb]. simpl. intros; lia.
  - intros m p. destruct (sendCDP (run init history) m p) as [st' [i|]] eqn:E;
      simpl; [|exact I].
    apply sendCDP_sends in E. destruct E as (k & _ & _ & Hi & _).
    split; [exact Hi|].
    assert (Hlt : Forall (fun j => (j < i)%Z) (issued (run init history))).
    { eapply Forall_impl; [|exact Hb]. simpl. intros; lia. }
    split; [|exact Hlt].
    rewrite <- Hc in Hlt. apply Forall_map in Hlt. exact Hlt.
Qed.

End ChannelClaims.

(** ** The process hunter *)

Section ProcessHunterFacts.
Import ProcessHunter.

Lemma setAdd_In (x y : Z) (l : list Z) :
  In y (setAdd x l) <-> y = x \/ In y l.
Proof.
  unfold setAdd. destruct (existsb (Z.eqb x) l) eqn:E.
  - split; [now right|]. intros [H | H]; [|exact H].
    subst y. apply existsb_exists in E. destruct E as (z & Hz & Hxz).
    apply Z.eqb_eq in Hxz. now subst z.
  - rewrite in_app_iff. simpl. intuition.
Qed.

Lemma setAdd_NoDup (x : Z) (l : list Z) : NoDup l -> NoDup (setAdd x l).
Proof.
  intros H. unfold setAdd. destruct (existsb (Z.eqb x) l) eqn:E; [exact H|].
  assert (Hx : ~ In x l).
  { intros Hin. assert (existsb (Z.eqb x) l = true) as E'.
    { apply existsb_exists. exists x. split; [exact Hin | apply Z.eqb_refl]. }
    congruence. }
  clear E. induction l as [|a l IH]; simpl.
  - constructor; [intros [] | constructor].
  - inversion H as [|? ? Ha Hl]; subst. constructor.
    + rewrite in_app_iff. simpl. intros [Hin | [Hin | []]]; [contradiction|].
      subst a. apply Hx. now left.
    + apply IH; [exact Hl|]. intros Hin. apply Hx. now right.
Qed.

Lemma collectPorts_spec (matches : list string) :
  forall ports,
    Forall inRange ports -> NoDup ports ->
    Forall inRange (collectPorts matches ports) /\ NoDup (collectPorts matches ports).
Proof.
  induction matches as [|value rest IH]; intros ports Hr Hn; simpl; [auto|].
  destruct (JS.parseInt value) as [port|]; [|auto].
  destruct ((1024 <? port)%Z && (port <=? 65535)%Z) eqn:E; [|auto].
  apply andb_true_iff in E. destruct E as [E1 E2].
  apply Z.ltb_lt in E1. apply Z.leb_le in E2.
  apply IH; [|apply setAdd_NoDup, Hn].
  apply Forall_forall. intros y Hy. apply setAdd_In in Hy.
  destruct Hy as [Hy | Hy]; [subst y; split; assumption|].
  rewrite Forall_forall in Hr. auto.
Qed.

Lemma insertSorted_In (x y : Z) (l : list Z) :
  In y (insertSorted x l) <-> y = x \/ In y l.
Proof.
  induction l as [|a l IH]; simpl; [intuition|].
  destruct (x <=? a)%Z; simpl; [intuition|]. rewrite IH. intuition.
Qed.

Lemma insertSorted_sorted (x : Z) (l : list Z) :
  StronglySorted Z.lt l -> ~ In x l -> StronglySorted Z.lt (insertSorted x l).
Proof.
  induction l as [|a l IH]; simpl; intros Hs Hx.
  - constructor; constructor.
  - inversion Hs as [|? ? Hs' Ha]; subst.
    destruct (x <=? a)%Z eqn:E.
    + apply Z.leb_le in E.
      assert (x < a)%Z by (assert (a <> x) by tauto; lia).
      constructor; [exact Hs|]. constructor; [assumption|].
      eapply Forall_impl; [|exact Ha]. simpl. intros; lia.
    + apply Z.leb_gt in E. constructor.
      * apply IH; [exact Hs' | tauto].
      * apply Forall_forall. intros y Hy. apply insertSorted_In in Hy.
        destruct Hy as [Hy | Hy]; [subst y; exact E|].
        rewrite Forall_forall in Ha. auto.
Qed.

Lemma sortAscending_In (y : Z) (l : list Z) : In y (sortAscending l) <-> In y l.
Proof.
  induction l as [|a l IH]; simpl; [tauto|].
  rewrite insertSorted_In, IH. intuition.
Qed.

Lemma sortAscending_sorted (l : list Z) :
  NoDup l -> StronglySorted Z.lt (sortAscending l).
Proof.
  induction 1 as [|a l Ha Hl IH]; simpl; [constructor|].
  apply insertSorted_sorted; [exact IH|]. now rewrite sortAscending_In.
Qed.

Lemma sorted_NoDup (l : list Z) : StronglySorted Z.lt l -> NoDup l.
Proof.
  induction 1 as [|a l Hs IH Ha]; constructor; [|exact IH].
  intros Hin. rewrite Forall_forall in Ha. specialize (Ha a Hin). lia.
Qed.

Lemma parseListeningPorts_spec (stdout : string) :
  Forall inRange (parseListeningPorts stdout)
  /\ StronglySorted Z.lt (parseListeningPorts stdout).
Proof.
  unfold parseListeningPorts.
  destruct (collectPorts_spec (JSRegExp.matchAll portNumber stdout) []
              (Forall_nil _) (NoDup_nil _)) as [Hr Hn].
  split; [|apply sortAscending_sorted, Hn].
  apply Forall_forall. intros y Hy. apply (proj1 (sortAscending_In _ _)) in Hy.
  rewrite Forall_forall in Hr. apply Hr, Hy.
Qed.

Variable pingPort : Z -> string -> bool.

(** The probes go through the ports in the order given and stop at the
    first port that answers. *)
Lemma verifyConnection_spec (token : string) (ports : list Z) :
  (exists rest, ports = (snd (verifyConnection pingPort ports token) ++ rest)%list)
  /\ match fst (verifyConnection pingPort ports token) with
     | Some port =>
         pingPort port token = true
         /\ exists before,
              snd (verifyConnection pingPort ports token) = (before ++ [port])%list
              /\ Forall (fun q => pingPort q token = false) before
     | None =>
         snd (verifyConnection pingPort ports token) = ports
         /\ Forall (fun q => pingPort q token = false) ports
     end.
Proof.
  induction ports as [|port rest IH]; simpl.
  - split; [exists []; reflexivity | split; [reflexivity | constructor]].
  - destruct (pingPort port token) eqn:E; simpl.
    + split; [exists rest; reflexivity|].
      split; [exact E|]. exists []. split; [reflexivity | constructor].
    + destruct (verifyConnection pingPort rest token) as [found probed].
      simpl in *. destruct IH as [(tl & Htl) IH]. split.
      * exists tl. now rewrite Htl at 1.
      * destruct found as [q|].
        -- destruct IH as (Hq & before & Hb & Hf). split; [exact Hq|].
           exists (port :: before). split; [now rewrite Hb | now constructor].
        -- destruct IH as (Hp & Hf). split; [now rewrite Hp | now constructor].
Qed.

End ProcessHunterFacts.

Section ScanFacts.
Import ProcessHunter.

Variable platform : Platform.
Variable parseListing : string -> option (list Win32Process).
Variable processList : nat -> option string.
Variable portList : nat -> Z -> option string.
Variable pingPort : nat -> Z -> string -> bool.

Lemma identifyPorts_inRange (listing : option string) :
  Forall inRange (identifyPorts listing).
Proof.
  destruct listing as [stdout|]; simpl; [|constructor].
  apply parseListeningPorts_spec.
Qed.

Lemma verifyConnection_inRange (ping : Z -> string -> bool)
    (ports : list Z) (token : string) :
  Forall inRange ports ->
  Forall inRange (snd (verifyConnection ping ports token)).
Proof.
  intros H.
  destruct (verifyConnection_spec ping token ports) as [(rest & Hrest) _].
  rewrite Hrest in H. apply Forall_app in H. exact (proj1 H).
Qed.

Lemma tryCandidates_inRange (i : nat) (candidates : list ProcessInfo) :
  Forall inRange
    (snd (tryCandidates portList pingPort i candidates)).
Proof.
  induction candidates as [|info rest IH]; [constructor|].
  cbn [tryCandidates].
  pose proof (identifyPorts_inRange (portList i (pid info))) as Hports.
  destruct (identifyPorts (portList i (pid info))) as [|port ports]; [exact IH|].
  pose proof (verifyConnection_inRange (pingPort i) (port :: ports)
                (csrfToken info) Hports) as Hprobed.
  destruct (verifyConnection (pingPort i) (port :: ports) (csrfToken info))
    as [validPort probed].
  cbn [snd] in Hprobed.
  destruct (tryCandidates portList pingPort i rest) as [found more].
  cbn [snd] in IH.
  destruct validPort as [[|valid|valid]|]; cbn [snd];
    try exact Hprobed; apply Forall_app; split; assumption.
Qed.

(** Every port [scanEnvironment] probes lies in the range. *)
Lemma scanEnvironment_inRange (maxAttempts : nat) :
  Forall inRange
    (snd (scanEnvironment platform parseListing processList portList pingPort
            maxAttempts)).
Proof.
  unfold scanEnvironment. generalize 0%nat as i.
  induction maxAttempts as [|n IH]; intros i; cbn [rounds]; [constructor|].
  pose proof (tryCandidates_inRange i
                (findProcesses platform parseListing processList i)) as H.
  destruct (tryCandidates portList pingPort i
              (findProcesses platform parseListing processList i))
    as [found probed].
  cbn [snd] in H. destruct found as [r|]; [exact H|].
  specialize (IH (S i)).
  destruct (rounds platform parseListing processList portList pingPort n (S i))
    as [later more].
  cbn [snd] in *. apply Forall_app. split; assumption.
Qed.

End ScanFacts.

(** *** Claims about port scanning and process parsing *)

Section ProcessHunterClaims.
Import ProcessHunter.

(** C7. Whatever the port listing holds, the ports [parseListeningPorts]
    returns lie in (1024, 65535], without repetition and in ascending
    order; [verifyConnection] probes them in that order, stops at the first
    port that answers and returns it, so every port probed lies in that
    range; and so does every port probed by [scanEnvironment], on any
    machine and over any number of rounds. *)
Theorem ports_in_range_ascending_probed_in_order
    (pingPort : Z -> string -> bool) (stdout token : string) :
  let ports := parseListeningPorts stdout in
  let found := fst (verifyConnection pingPort ports token) in
  let probed := snd (verifyConnection pingPort ports token) in
  Forall inRange ports
  /\ NoDup ports
  /\ StronglySorted Z.lt ports
  /\ (exists rest, ports = (probed ++ rest)%list)
  /\ Forall inRange probed
  /\ match found with
     | Some port =>
         pingPort port token = true
         /\ exists before,
              probed = (before ++ [port])%list
              /\ Forall (fun q => pingPort q token = false) before
     | None =>
         probed = ports /\ Forall (fun q => pingPort q token = false) ports
     end
  /\ (forall (platform : Platform)
             (parseListing : string -> option (list Win32Process))
             (processList : nat -> option string)
             (portList : nat -> Z -> option string)
             (ping : nat -> Z -> string -> bool) (maxAttempts : nat),
         Forall inRange
           (snd (scanEnvironment platform parseListing processList portList ping
                   maxAttempts))).
Proof.
  intros ports found probed.
  destruct (parseListeningPorts_spec stdout) as [Hr Hs].
  destruct (verifyConnection_spec pingPort token ports) as [(rest & Hrest) Hv].
  split; [exact Hr|].
  split; [apply sorted_NoDup, Hs|].
  split; [exact Hs|].
  split; [exists rest; exact Hrest|].
  split; [|split; [exact Hv | intros; apply scanEnvironment_inRange]].
  fold ports in Hr. rewrite Hrest in Hr.
  apply Forall_app in Hr. exact (proj1 Hr).
Qed.

(** C7, on a listing by [ss]: the pid, file descriptor and queue sizes
    fall outside the range, port 8080 shows twice, and the probes stop at
    42100, the first port to answer. *)
Example ports_of_a_listing :
  parseListeningPorts
    ("LISTEN 0 4096 127.0.0.1:42100 0.0.0.0:* users:((x,pid=991,fd=9))"
     ++ String (ascii_of_N 10)
     "LISTEN 0 4096 127.0.0.1:8080 0.0.0.0:* users:((x,pid=991,fd=12))"
     ++ String (ascii_of_N 10)
     "LISTEN 0 4096 [::1]:8080 [::]:* users:((x,pid=991,fd=13))"
     ++ String (ascii_of_N 10)
     "LISTEN 0 4096 127.0.0.1:443 0.0.0.0:70000 users:((x,pid=991,fd=14))")
  = [4096; 8080; 42100]%Z
  /\ verifyConnection (fun port _ => (42100 <=? port)%Z) [4096; 8080; 42100; 50000]%Z "t"
     = (Some 42100%Z, [4096; 8080; 42100]%Z).
Proof. split; reflexivity. Qed.

(** Two rounds on a machine whose server listens on nothing in the first
    round and answers on 42100 in the second: the descriptor is the second
    round's, and the only ports probed are its ports up to 42100. *)
Example scan_in_two_rounds :
  scanEnvironment linux (fun _ => None)
    (fun _ => Some Samples.processListing)
    (fun i _ => match i with
                | O => Some EmptyString
                | _ => Some "LISTEN 0 4096 127.0.0.1:42100 0.0.0.0:* users:((x,pid=991,fd=9))"
                end)
    (fun _ port _ => (port =? 42100)%Z)
    2
  = (Some {| scanExtensionPort := 40123; connectPort := 42100;
             scanCsrfToken := "3f2a-77c1" |},
     [4096; 42100]%Z).
Proof. reflexivity. Qed.

Lemma lacksFlag_rejected (cmd : string) :
  lacksFlag cmd -> isAntigravityProcess cmd = false.
Proof.
  unfold isAntigravityProcess. intros [H | H]; rewrite H; [reflexivity|].
  rewrite andb_false_r. reflexivity.
Qed.

Lemma candidateOfLine_lacksFlag (line : string) :
  lacksFlag (commandLineOf line) -> candidateOfLine line = None.
Proof.
  intros H. apply lacksFlag_rejected in H.
  unfold candidateOfLine. unfold commandLineOf in H.
  destruct (Nat.ltb _ 3); [reflexivity|].
  destruct (JS.parseInt _); [|reflexivity].
  rewrite H. reflexivity.
Qed.

Lemma candidateOfItem_lacksFlag (item : Win32Process) (cmd : string) :
  CommandLine item = Some cmd -> lacksFlag cmd -> candidateOfItem item = None.
Proof.
  intros Hc H. apply lacksFlag_rejected in H.
  unfold candidateOfItem. rewrite Hc.
  replace (match cmd with String c t => String c t | EmptyString => EmptyString end)
    with cmd by (destruct cmd; reflexivity).
  rewrite H. reflexivity.
Qed.

(** An entry for which the body of the loop yields nothing leaves the
    candidate list as if it had not been there. *)
Lemma collectCandidates_skip {A : Type} (body : A -> option ProcessInfo)
    (before : list A) (e : A) (after : list A) :
  body e = None ->
  forall candidates,
    collectCandidates body (before ++ e :: after) candidates
    = collectCandidates body (before ++ after) candidates.
Proof.
  intros He. induction before as [|a before IH]; intros candidates; simpl.
  - rewrite He. reflexivity.
  - destruct (body a); apply IH.
Qed.

(** C8. A process whose command line holds the marker argument but lacks
    the port flag or the token flag yields no candidate: the list
    [parseProcessInfo] returns is the one it would return had the process
    not been listed, on Windows (where the listing is parsed from JSON) and
    elsewhere (where it is read line by line). *)
Theorem process_without_both_flags_excluded
    (parseListing : string -> option (list Win32Process))
    (platform : Platform) (stdout cmd : string) :
  JSRegExp.test markerArgument cmd = true ->
  lacksFlag cmd ->
  isAntigravityProcess cmd = false
  /\ (forall (before after : list string) (line : string),
         platform <> win32 ->
         linesOf stdout = (before ++ line :: after)%list ->
         commandLineOf line = cmd ->
         candidateOfLine line = None
         /\ parseProcessInfo parseListing platform stdout
            = collectCandidates candidateOfLine (before ++ after) [])
  /\ (forall (before after : list Win32Process) (item : Win32Process),
         platform = win32 ->
         JS.includes stdout "{" = true ->
         parseListing stdout = Some (before ++ item :: after)%list ->
         CommandLine item = Some cmd ->
         candidateOfItem item = None
         /\ parseProcessInfo parseListing platform stdout
            = collectCandidates candidateOfItem (before ++ after) []).
Proof.
  intros _ Hlacks. split; [apply lacksFlag_rejected, Hlacks|]. split.
  - intros before after line Hp Hlines Hcmd.
    assert (Hnone : candidateOfLine line = None)
      by (apply candidateOfLine_lacksFlag; rewrite Hcmd; exact Hlacks).
    split; [exact Hnone|].
    destruct platform; [contradiction Hp; reflexivity | |];
      simpl; rewrite Hlines; apply collectCandidates_skip, Hnone.
  - intros before after item Hp Hbrace Hlist Hcmd.
    assert (Hnone : candidateOfItem item = None)
      by (apply (candidateOfItem_lacksFlag item cmd); assumption).
    split; [exact Hnone|].
    subst platform. simpl. rewrite Hbrace, Hlist.
    apply collectCandidates_skip, Hnone.
Qed.

(** C8, on a listing of two processes: the one started without a token
    is left out, the other one is the only candidate. *)
Lemma tokenless_process_excluded :
  JSRegExp.test markerArgument (commandLineOf Samples.tokenlessLine) = true
  /\ lacksFlag (commandLineOf Samples.tokenlessLine)
  /\ linesOf Samples.processListing = [Samples.serverLine; Samples.tokenlessLine]
  /\ candidateOfLine Samples.tokenlessLine = None
  /\ parseProcessInfo (fun _ => None) linux Samples.processListing
     = [ {| pid := 991; extensionPort := 40123; csrfToken := "3f2a-77c1" |} ].
Proof.
  split; [reflexivity|].
  split; [right; reflexivity|].
  split; [reflexivity|].
  destruct (process_without_both_flags_excluded
              (fun _ => None) linux Samples.processListing
              (commandLineOf Samples.tokenlessLine)
              eq_refl (or_intror eq_refl)) as (_ & Hlines & _).
  destruct (Hlines [Samples.serverLine] [] Samples.tokenlessLine) as [Hnone Hlist].
  - discriminate.
  - reflexivity.
  - reflexivity.
  - split; [exact Hnone|]. rewrite Hlist. reflexivity.
Defined.

End ProcessHunterClaims.

(* ===================================================================== *)
(** * Further properties *)
(* ===================================================================== *)

(** ** The decision routine as a whole *)

Section RoutineExtras.
Import DOM ClickScript.

Lemma clickLoop_filter (A R B : list string) (buttons : list Element) :
  forall (count : Z) (log : list Element),
    snd (clickLoop A R B buttons count log)
    = (log ++ filter (fun el => isAcceptButton A R el && negb (blockedCommand B el))
                buttons)%list.
Proof.
  induction buttons as [|btn rest IH]; intros count log; simpl.
  - now rewrite app_nil_r.
  - destruct (isAcceptButton A R btn); simpl;
      [destruct (blockedCommand B btn); simpl|]; rewrite IH; try reflexivity.
    now rewrite <- app_assoc.
Qed.

Lemma filter_filter {A : Type} (f g : A -> bool) (l : list A) :
  filter g (filter f l) = filter (fun x => f x && g x) l.
Proof.
  induction l as [|a l IH]; simpl; [reflexivity|].
  destruct (f a); simpl; [destruct (g a)|]; now rewrite IH.
Qed.

(** X1. Past the typing guard, the routine clicks exactly the elements of
    the page that pass all its tests, each once and in document order, and
    the count it returns is the number of clicks; [skipped] is set only by
    the typing guard, never when nothing was clicked. *)
Theorem routine_clicks_what_passes
    (blocklist : SafetyFilter.setting) (doc : Document) :
  generateClickScript blocklist doc
  = if isUserTyping doc then
      ({| clicked := 0; skipped := Some "user typing" |}, [])
    else
      ({| clicked := Z.of_nat (List.length (filter (passes blocklist) (elements doc)));
          skipped := None |},
       filter (passes blocklist) (elements doc)).
Proof.
  unfold generateClickScript, routine.
  destruct (isUserTyping doc); [reflexivity|].
  set (B := match blocklist with Some l => l | None => [] end).
  pose proof (clickLoop_filter Constants.ACCEPT_PATTERNS Constants.REJECT_PATTERNS B
                (querySelectorAll candidate doc) 0 []) as Hlog.
  pose proof (clickLoop_count Constants.ACCEPT_PATTERNS Constants.REJECT_PATTERNS B
                (querySelectorAll candidate doc) 0 []) as Hcount.
  destruct (clickLoop Constants.ACCEPT_PATTERNS Constants.REJECT_PATTERNS B
              (querySelectorAll candidate doc) 0 []) as [count log].
  simpl in Hlog, Hcount. unfold querySelectorAll in Hlog.
  rewrite filter_filter in Hlog.
  rewrite (filter_ext _ (passes blocklist)) in Hlog.
  - subst log. f_equal. f_equal. lia.
  - intros el. unfold passes. fold B. now rewrite andb_assoc.
Qed.

(** X2. An element the routine clicks is rendered and interactive, and its
    trimmed text has between 1 and 50 characters: nothing hidden, of zero
    width, closed to pointer events or disabled is clicked. *)
Theorem clicked_elements_are_visible
    (blocklist : SafetyFilter.setting) (doc : Document) (el : Element) :
  In el (snd (generateClickScript blocklist doc)) ->
  display el <> "none"
  /\ width el <> 0%Z
  /\ pointerEvents el <> "none"
  /\ disabled el = false
  /\ (1 <= JS.length (normalizedText el) <= 50)%Z.
Proof.
  intros H. apply routine_clicks in H. destruct H as (_ & _ & Ha & _).
  unfold isAcceptButton in Ha.
  destruct ((JS.length (normalizedText el) =? 0)%Z
            || (50 <? JS.length (normalizedText el))%Z) eqn:Elen; [discriminate|].
  destruct (existsb _ Constants.REJECT_PATTERNS); [discriminate|].
  destruct (negb (existsb _ Constants.ACCEPT_PATTERNS)); [discriminate|].
  destruct (String.eqb (display el) "none" || (width el =? 0)%Z) eqn:Evis;
    [discriminate|].
  destruct (String.eqb (pointerEvents el) "none" || disabled el) eqn:Eint;
    [discriminate|].
  apply orb_false_iff in Elen, Evis, Eint.
  destruct Elen as [L0 L50], Evis as [Vd Vw], Eint as [Ip Id].
  apply String.eqb_neq in Vd, Ip. apply Z.eqb_neq in Vw, L0. apply Z.ltb_ge in L50.
  repeat split; auto.
  unfold JS.length in *. lia.
Qed.

(** X2, at a page with a hidden button and a visible one. *)
Lemma clicked_elements_are_visible_example :
  In Samples.acceptAll
    (snd (generateClickScript None
            (Samples.page None
               [ {| tagName := "BUTTON"; role := None; className := None;
                    ancestors := []; isContentEditable := false;
                    textContent := "Run"; display := "none";
                    pointerEvents := "auto"; width := 96; disabled := false;
                    preview := None |};
                 Samples.acceptAll ])))
  /\ (display Samples.acceptAll <> "none"
      /\ width Samples.acceptAll <> 0%Z
      /\ pointerEvents Samples.acceptAll <> "none"
      /\ disabled Samples.acceptAll = false
      /\ (1 <= JS.length (normalizedText Samples.acceptAll) <= 50)%Z).
Proof.
  split; [simpl; auto|].
  apply (clicked_elements_are_visible None
           (Samples.page None
              [ {| tagName := "BUTTON"; role := None; className := None;
                   ancestors := []; isContentEditable := false;
                   textContent := "Run"; display := "none";
                   pointerEvents := "auto"; width := 96; disabled := false;
                   preview := None |};
                Samples.acceptAll ])).
  simpl; auto.
Defined.

Lemma includes_empty (s : string) : JS.includes s EmptyString = true.
Proof. destruct s; reflexivity. Qed.

(** X3. The gate of the routine compares entries as they are: when the
    blocklist setting holds the empty string, no element with run or
    execute wording that has a command preview is clicked, whatever the
    preview says. *)
Theorem empty_entry_blocks_every_preview
    (entries : list string) (doc : Document) (el : Element) (pre : string) :
  In EmptyString entries ->
  runWording el = true ->
  preview el = Some pre ->
  ~ In el (snd (generateClickScript (Some entries) doc)).
Proof.
  intros Hin Hword Hpre.
  apply (blocked_preview_not_clicked _ _ entries doc el pre EmptyString);
    auto using includes_empty.
  unfold runWording in Hword. apply orb_true_iff in Hword. exact Hword.
Qed.

(** X3, at a Run button next to a harmless command. *)
Lemma empty_entry_blocks_every_preview_example :
  In EmptyString [EmptyString]
  /\ runWording (Samples.button "Run command" (Some "ls")) = true
  /\ preview (Samples.button "Run command" (Some "ls")) = Some "ls"
  /\ In (Samples.button "Run command" (Some "ls"))
       (snd (generateClickScript (Some ["rm -rf /"])
               (Samples.page None [Samples.button "Run command" (Some "ls")])))
  /\ ~ In (Samples.button "Run command" (Some "ls"))
       (snd (generateClickScript (Some [EmptyString])
               (Samples.page None [Samples.button "Run command" (Some "ls")]))).
Proof.
  split; [simpl; auto|].
  split; [reflexivity|].
  split; [reflexivity|].
  split; [simpl; auto|].
  apply (empty_entry_blocks_every_preview [EmptyString] _ _ "ls");
    [simpl; auto | reflexivity | reflexivity].
Defined.

(** X4. The gate looks only at elements with run or execute wording that
    have a preview: an element that passes [isAcceptButton] and has no such
    wording, or no preview, is clicked whatever the blocklist holds. *)
Theorem gate_guards_only_run_wording_with_preview
    (blocklist : SafetyFilter.setting) (doc : Document) (el : Element) :
  isUserTyping doc = false ->
  In el (elements doc) ->
  candidate el = true ->
  isAcceptButton Constants.ACCEPT_PATTERNS Constants.REJECT_PATTERNS el = true ->
  runWording el = false \/ preview el = None ->
  In el (snd (generateClickScript blocklist doc)).
Proof.
  intros Ht Hin Hc Ha Hgate.
  apply routine_clicks_all; auto.
  unfold blockedCommand. unfold runWording in Hgate.
  destruct Hgate as [Hw | Hp].
  - rewrite Hw. reflexivity.
  - rewrite Hp. now destruct (_ || _).
Qed.

(** X4, at an Accept button that sits next to a blocked command. *)
Lemma gate_guards_only_run_wording_example :
  isUserTyping (Samples.page None [Samples.button "Accept" (Some "rm -rf /")]) = false
  /\ runWording (Samples.button "Accept" (Some "rm -rf /")) = false
  /\ In (Samples.button "Accept" (Some "rm -rf /"))
       (snd (generateClickScript (Some Constants.DEFAULT_BLOCKLIST)
               (Samples.page None [Samples.button "Accept" (Some "rm -rf /")]))).
Proof.
  split; [reflexivity|].
  split; [reflexivity|].
  apply gate_guards_only_run_wording_with_preview.
  - reflexivity.
  - simpl; auto.
  - reflexivity.
  - reflexivity.
  - left; reflexivity.
Defined.

End RoutineExtras.

(** ** The two filters, and editing the blocklist *)

Section BlocklistExtras.
Import SafetyFilter BlocklistEdit.

Lemma isSpace_lowerChar (c : ascii) : JS.isSpace (JS.lowerChar c) = JS.isSpace c.
Proof.
  destruct (JS.isSpace c) eqn:E.
  - now rewrite (lowerChar_space c E).
  - now apply lowerChar_not_space.
Qed.

Lemma trimStart_toLowerCase (s : string) :
  JS.trimStart (JS.toLowerCase s) = JS.toLowerCase (JS.trimStart s).
Proof.
  induction s as [|c t IH]; simpl; [reflexivity|].
  rewrite isSpace_lowerChar. destruct (JS.isSpace c); [exact IH | reflexivity].
Qed.

Lemma trimEnd_toLowerCase (s : string) :
  JS.trimEnd (JS.toLowerCase s) = JS.toLowerCase (JS.trimEnd s).
Proof.
  induction s as [|c t IH]; simpl; [reflexivity|].
  rewrite IH, isSpace_lowerChar.
  destruct (JS.trimEnd t); simpl; [destruct (JS.isSpace c)|]; reflexivity.
Qed.

(** Case folding and trimming commute. *)
Lemma trim_toLowerCase (s : string) :
  JS.trim (JS.toLowerCase s) = JS.toLowerCase (JS.trim s).
Proof.
  unfold JS.trim. now rewrite trimStart_toLowerCase, trimEnd_toLowerCase.
Qed.

Lemma scan_plain (RegExp : string -> string -> option (string -> bool))
    (entries : list string) (text : string) :
  Forall (fun e => plain e = true) entries ->
  scan RegExp entries (JS.toLowerCase text) text
  = ClickScript.isCommandBlocked entries text.
Proof.
  unfold ClickScript.isCommandBlocked.
  induction 1 as [|e entries He _ IH]; [reflexivity|].
  rewrite scan_cons, IH. simpl existsb. f_equal.
  unfold plain in He.
  apply andb_true_iff in He. destruct He as [He Hne].
  apply andb_true_iff in He. destruct He as [Hd Ht].
  apply negb_true_iff in Hd, Hne. apply String.eqb_eq in Ht.
  apply String.eqb_neq in Hne.
  simpl. rewrite trim_toLowerCase, Ht, Hd.
  destruct e as [|a t]; [contradiction|]. simpl.
  now destruct (JS.includes _ _).
Qed.

(** X5. On a blocklist of plain entries (undelimited, not blank, no white
    space at either end) the gate of the routine and [isBlocked] agree on
    every text, whatever the regular-expression engine; the default list is
    such a list. *)
Theorem filters_agree_on_plain_entries
    (RegExp : string -> string -> option (string -> bool))
    (custom : setting) (text : string) :
  Forall (fun e => plain e = true) (getBlocklist custom) ->
  ClickScript.isCommandBlocked (getBlocklist custom) text
  = isBlocked RegExp custom text.
Proof.
  intros H. unfold isBlocked. symmetry. apply scan_plain, H.
Qed.

(** X5, at the default list. *)
Lemma filters_agree_on_default_list :
  Forall (fun e => plain e = true) (getBlocklist None)
  /\ ClickScript.isCommandBlocked (getBlocklist None) "sudo RM -RF / --no-preserve-root"
     = isBlocked JSRegExp.newRegExp None "sudo RM -RF / --no-preserve-root".
Proof.
  assert (H : Forall (fun e => plain e = true) (getBlocklist None))
    by (repeat constructor).
  split; [exact H|].
  apply (filters_agree_on_plain_entries JSRegExp.newRegExp None _ H).
Defined.

Lemma getBlocklist_nonempty (l : list string) :
  l <> [] -> getBlocklist (Some l) = l.
Proof. destruct l; [contradiction | reflexivity]. Qed.

Lemma listed_In (p : string) (l : list string) : listed p l = true <-> In p l.
Proof.
  unfold listed. rewrite existsb_exists. split.
  - intros (q & Hq & E). apply String.eqb_eq in E. now subst q.
  - intros H. exists p. split; [exact H | apply String.eqb_refl].
Qed.

Lemma getBlocklist_after_add (p : string) (custom : setting) :
  getBlocklist (addToBlocklist p custom)
  = (if listed p (getBlocklist custom) then getBlocklist custom
     else getBlocklist custom ++ [p])%list.
Proof.
  unfold addToBlocklist.
  destruct (listed p (getBlocklist custom)) eqn:E; cbn [negb].
  - reflexivity.
  - apply getBlocklist_nonempty.
    intros H; apply app_eq_nil in H; destruct H; discriminate.
Qed.

(** X6. After [addToBlocklist(p)] the active blocklist lists [p]; it is
    the list as it was, with [p] put at the end when it was not listed;
    and adding [p] again changes nothing. *)
Theorem add_lists_pattern_once (p : string) (custom : setting) :
  In p (getBlocklist (addToBlocklist p custom))
  /\ getBlocklist (addToBlocklist p custom)
     = (if listed p (getBlocklist custom) then getBlocklist custom
        else getBlocklist custom ++ [p])%list
  /\ addToBlocklist p (addToBlocklist p custom) = addToBlocklist p custom.
Proof.
  assert (Hin : In p (getBlocklist (addToBlocklist p custom))).
  { rewrite getBlocklist_after_add.
    destruct (listed p (getBlocklist custom)) eqn:E.
    - apply listed_In, E.
    - apply in_or_app; right; now left. }
  split; [exact Hin|]. split; [apply getBlocklist_after_add|].
  apply listed_In in Hin.
  unfold addToBlocklist at 1. now rewrite Hin.
Qed.

(** X7. Adding a pattern never unblocks a command: what [isBlocked]
    blocked before [addToBlocklist], it blocks afterwards. *)
Theorem add_never_unblocks
    (RegExp : string -> string -> option (string -> bool))
    (p : string) (custom : setting) (command : string) :
  isBlocked RegExp custom command = true ->
  isBlocked RegExp (addToBlocklist p custom) command = true.
Proof.
  intros H. unfold isBlocked in *.
  rewrite getBlocklist_after_add.
  destruct (listed p (getBlocklist custom)); [exact H|].
  rewrite scan_app, H. reflexivity.
Qed.

(** X7, adding an entry to the default list. *)
Lemma add_never_unblocks_example :
  isBlocked JSRegExp.newRegExp None "dd if=/dev/zero of=/dev/sda" = true
  /\ addToBlocklist "shutdown" None
     = Some (Constants.DEFAULT_BLOCKLIST ++ ["shutdown"])%list
  /\ isBlocked JSRegExp.newRegExp (addToBlocklist "shutdown" None)
       "dd if=/dev/zero of=/dev/sda" = true.
Proof.
  split; [reflexivity|].
  split; [reflexivity|].
  apply (add_never_unblocks JSRegExp.newRegExp "shutdown" None). reflexivity.
Defined.

Lemma filter_keeps_other (p q : string) (l : list string) :
  In q l -> q <> p -> filter (fun x => negb (String.eqb x p)) l <> [].
Proof.
  intros Hin Hne H.
  assert (Hq : In q (filter (fun x => negb (String.eqb x p)) l)).
  { apply filter_In. split; [exact Hin|].
    apply negb_true_iff, String.eqb_neq, Hne. }
  rewrite H in Hq. destruct Hq.
Qed.

Lemma default_minus_one (p : string) :
  filter (fun x => negb (String.eqb x p)) Constants.DEFAULT_BLOCKLIST <> [].
Proof.
  destruct (String.eqb "rm -rf /" p) eqn:E.
  - apply String.eqb_eq in E. subst p.
    apply (filter_keeps_other _ "rm -rf ~"); [simpl; auto | discriminate].
  - apply String.eqb_neq in E.
    apply (filter_keeps_other _ "rm -rf /"); [simpl; auto | exact E].
Qed.

Lemma not_in_filter (p : string) (l : list string) :
  ~ In p (filter (fun x => negb (String.eqb x p)) l).
Proof.
  intros H. apply filter_In in H. destruct H as [_ H].
  rewrite String.eqb_refl in H. discriminate.
Qed.

Lemma filter_absent (p : string) (l : list string) :
  ~ In p l -> filter (fun x => negb (String.eqb x p)) l = l.
Proof.
  induction l as [|a l IH]; simpl; intros H; [reflexivity|].
  destruct (String.eqb a p) eqn:E.
  - apply String.eqb_eq in E. subst a. exfalso. apply H. now left.
  - simpl. rewrite IH; [reflexivity|]. intros Hin. apply H. now right.
Qed.

(** X8. [removeFromBlocklist(p)] leaves an active blocklist without [p],
    except when every entry was [p]: then the default list is active
    again, [p] included if it is a default.  Removing [p] a second time
    always leaves a list without [p]; removing a pattern that is not listed
    leaves the active list as it was; and the active list is never
    empty. *)
Theorem remove_may_restore_defaults :
  (forall (p : string) (custom : setting),
      ~ In p (getBlocklist (removeFromBlocklist p custom))
      \/ (getBlocklist (removeFromBlocklist p custom) = Constants.DEFAULT_BLOCKLIST
          /\ forall q, In q (getBlocklist custom) -> q = p))
  /\ (forall (p : string) (custom : setting),
         ~ In p (getBlocklist (removeFromBlocklist p (removeFromBlocklist p custom))))
  /\ (forall (p : string) (custom : setting),
         ~ In p (getBlocklist custom) ->
         getBlocklist (removeFromBlocklist p custom) = getBlocklist custom)
  /\ (forall custom : setting, getBlocklist custom <> [])
  /\ getBlocklist (removeFromBlocklist "rm -rf /" (Some ["rm -rf /"]))
     = Constants.DEFAULT_BLOCKLIST.
Proof.
  assert (Hne : forall custom : setting, getBlocklist custom <> []).
  { intros [[|a l]|]; simpl; discriminate. }
  assert (Honce : forall p custom,
             ~ In p (getBlocklist (removeFromBlocklist p custom))
             \/ (getBlocklist (removeFromBlocklist p custom) = Constants.DEFAULT_BLOCKLIST
                 /\ filter (fun x => negb (String.eqb x p)) (getBlocklist custom) = [])).
  { intros p custom. unfold removeFromBlocklist.
    destruct (filter (fun x => negb (String.eqb x p)) (getBlocklist custom))
      as [|a l] eqn:E.
    - right. split; reflexivity.
    - left. cbn [getBlocklist]. rewrite <- E. apply not_in_filter. }
  split; [|split; [|split; [|split; [exact Hne | reflexivity]]]].
  - intros p custom. destruct (Honce p custom) as [H | [H E]]; [now left|].
    right. split; [exact H|]. intros q Hq.
    destruct (String.eqb q p) eqn:Eq; [now apply String.eqb_eq|].
    apply String.eqb_neq in Eq.
    exfalso. apply (filter_keeps_other p q _ Hq Eq E).
  - intros p custom. destruct (Honce p custom) as [H | [H _]].
    + unfold removeFromBlocklist at 1.
      rewrite (filter_absent p _ H).
      rewrite getBlocklist_nonempty; [exact H | apply Hne].
    + unfold removeFromBlocklist at 1. rewrite H.
      rewrite getBlocklist_nonempty; [apply not_in_filter | apply default_minus_one].
  - intros p custom H. unfold removeFromBlocklist.
    rewrite (filter_absent p _ H).
    apply getBlocklist_nonempty, Hne.
Qed.

End BlocklistExtras.

(** ** More on the control channel *)

Section ChannelExtras.
Import Channel.

Lemma consecutive_step (st : AutoClicker) (e : event) :
  consecutive st -> consecutive (step st e).
Proof.
  intros [Hi Hm]. destruct e as [|m p|k r|k| |ms]; simpl; try (split; assumption).
  - unfold sendCDP. destruct (ws st) as [k|]; [|split; assumption].
    destruct (stateOf st k); try (split; assumption).
    unfold consecutive, issued in *. simpl.
    rewrite map_app, Hi, length_app, Nat.add_comm. simpl List.length.
    rewrite seq_S, map_app. simpl. split; [|lia].
    rewrite Hm. do 2 f_equal. lia.
  - unfold onMessage. destruct (stateOf st k); split; assumption.
  - unfold disconnect. destruct (ws st); split; assumption.
Qed.

Lemma consecutive_run (evs : list event) :
  forall st, consecutive st -> consecutive (run st evs).
Proof.
  induction evs as [|e evs IH]; intros st H; simpl; [exact H|].
  apply IH, consecutive_step, H.
Qed.

(** X9. The ids carry no gaps: over any history the envelopes sent are
    numbered 1, 2, 3, ... in the order sent and the counter equals their
    number, so a call that throws because the socket is not open uses up
    no id. *)
Theorem request_ids_are_consecutive (history : list event) :
  issued (run init history)
  = map Z.of_nat (seq 1 (List.length (wire (run init history))))
  /\ messageId (run init history) = Z.of_nat (List.length (wire (run init history)))
  /\ List.length (calls (run init history)) = List.length (wire (run init history)).
Proof.
  destruct (consecutive_run history init) as [Hi Hm]; [split; reflexivity|].
  split; [exact Hi|]. split; [exact Hm|].
  pose proof (invariant_run history init invariant_init) as [Hc _ _ _].
  apply (f_equal (@List.length Z)) in Hc.
  unfold issued in Hc. rewrite !length_map in Hc. exact Hc.
Qed.

Lemma find_settled (k : nat) (r : Response) (i : Z) (l : list Call) (c : Call) :
  find (fun c => (callId c =? i)%Z) l = Some c ->
  settled c <> Pending ->
  find (fun c => (callId c =? i)%Z) (map (handler k r) l) = Some c.
Proof.
  induction l as [|a l IH]; simpl; [discriminate|].
  rewrite handler_callId. destruct (callId a =? i)%Z; [|exact IH].
  intros H Hs. inversion H; subst a. f_equal.
  unfold handler. destruct (settled c); [now elim Hs | reflexivity | reflexivity].
Qed.

Lemma settled_step (st : AutoClicker) (e : event) (i : Z) (c : Call) :
  find (fun c => (callId c =? i)%Z) (calls st) = Some c ->
  settled c <> Pending ->
  find (fun c => (callId c =? i)%Z) (calls (step st e)) = Some c.
Proof.
  intros H Hs. destruct e as [|m p|k r|k| |ms]; simpl; try exact H.
  - unfold sendCDP. destruct (ws st) as [k|]; [|exact H].
    destruct (stateOf st k); try exact H. simpl. now apply find_app_some.
  - unfold onMessage. destruct (stateOf st k); try exact H. simpl.
    now apply find_settled.
  - unfold disconnect. destruct (ws st); exact H.
Qed.

(** X10. A call settles once: after it is resolved or rejected, no later
    message, not even one that carries its id again, and no other event
    changes its outcome. *)
Theorem settled_call_keeps_its_outcome
    (st : AutoClicker) (later : list event) (i : Z) (o : outcome) :
  outcomeOf st i = Some o ->
  o <> Pending ->
  outcomeOf (run st later) i = Some o.
Proof.
  unfold outcomeOf. intros H Ho.
  destruct (find (fun c => (callId c =? i)%Z) (calls st)) as [c|] eqn:F;
    [|discriminate].
  simpl in H. inversion H; subst o. clear H.
  revert st F. induction later as [|e later IH]; intros st F; simpl.
  - now rewrite F.
  - apply IH. now apply settled_step.
Qed.

(** X10, with a second response that contradicts the first. *)
Lemma settled_call_keeps_its_outcome_example :
  outcomeOf
    (run init [Connect; Send "Runtime.evaluate" None;
               Message 0 {| responseId := 1; error := None; result := "ok" |}]) 1
  = Some (Resolved "ok")
  /\ Resolved "ok" <> Pending
  /\ outcomeOf
       (run (run init [Connect; Send "Runtime.evaluate" None;
                       Message 0 {| responseId := 1; error := None; result := "ok" |}])
            [Message 0 {| responseId := 1; error := Some "late"; result := "" |};
             Disconnect])
       1
     = Some (Resolved "ok").
Proof.
  split; [reflexivity|].
  split; [discriminate|].
  apply settled_call_keeps_its_outcome; [reflexivity | discriminate].
Defined.












End ChannelExtras.

(** ** More on the process hunter *)

Section HunterExtras.
Import ProcessHunter.

Lemma collectPorts_In (matches : list string) :
  forall (ports : list Z) (p : Z),
    In p (collectPorts matches ports) <->
    In p ports
    \/ (inRange p /\ exists value, In value matches /\ JS.parseInt value = Some p).
Proof.
  induction matches as [|value rest IH]; intros ports p; simpl.
  - split; [now left | intros [H | (_ & v & [] & _)]; exact H].
  - destruct (JS.parseInt value) as [port|] eqn:E.
    + destruct ((1024 <? port)%Z && (port <=? 65535)%Z) eqn:R.
      * rewrite IH, setAdd_In.
        apply andb_true_iff in R. destruct R as [R1 R2].
        apply Z.ltb_lt in R1. apply Z.leb_le in R2. split.
        -- intros [[H | H] | (Hr & v & Hv & Hp)]; auto.
           ++ subst p. right. split; [split; assumption|]. exists value. auto.
           ++ right. split; [exact Hr|]. exists v. auto.
        -- intros [H | (Hr & v & [Hv | Hv] & Hp)]; auto.
           ++ subst v. left. left. congruence.
           ++ right. split; [exact Hr|]. exists v. auto.
      * rewrite IH. split.
        -- intros [H | (Hr & v & Hv & Hp)]; auto.
           right. split; [exact Hr|]. exists v. auto.
        -- intros [H | (Hr & v & [Hv | Hv] & Hp)]; auto.
           ++ subst v. exfalso. rewrite E in Hp. inversion Hp; subst port.
              destruct Hr as [H1 H2].
              apply Z.ltb_lt in H1. apply Z.leb_le in H2.
              rewrite H1, H2 in R. discriminate.
           ++ right. split; [exact Hr|]. exists v. auto.
    + rewrite IH. split.
      * intros [H | (Hr & v & Hv & Hp)]; auto.
        right. split; [exact Hr|]. exists v. auto.
      * intros [H | (Hr & v & [Hv | Hv] & Hp)]; auto.
        -- subst v. congruence.
        -- right. split; [exact Hr|]. exists v. auto.
Qed.

(** X13. [parseListeningPorts] drops nothing it should keep: a port is
    returned iff it lies in (1024, 65535] and is the value of some number
    the expression finds in the listing. *)
Theorem listed_ports_are_all_returned (stdout : string) (p : Z) :
  In p (parseListeningPorts stdout) <->
  inRange p
  /\ exists value,
       In value (JSRegExp.matchAll portNumber stdout)
       /\ JS.parseInt value = Some p.
Proof.
  unfold parseListeningPorts. rewrite sortAscending_In, collectPorts_In.
  split; [intros [[] | H]; exact H | intros H; now right].
Qed.

Lemma sorted_app_lt (l1 l2 : list Z) (x : Z) :
  StronglySorted Z.lt (l1 ++ x :: l2) -> Forall (fun y => (x < y)%Z) l2.
Proof.
  induction l1 as [|a l1 IH]; simpl; intros H; inversion H; subst; auto.
Qed.

(** X14. The port [verifyConnection] returns for a listing is the lowest
    port of the listing that answers the probe. *)
Theorem lowest_answering_port_is_returned
    (pingPort : Z -> string -> bool) (stdout token : string) (port : Z) :
  fst (verifyConnection pingPort (parseListeningPorts stdout) token) = Some port ->
  In port (parseListeningPorts stdout)
  /\ pingPort port token = true
  /\ (forall q, In q (parseListeningPorts stdout) ->
                pingPort q token = true -> (port <= q)%Z).
Proof.
  intros H.
  destruct (parseListeningPorts_spec stdout) as [_ Hs].
  destruct (verifyConnection_spec pingPort token (parseListeningPorts stdout))
    as [(rest & Hrest) Hv].
  rewrite H in Hv. destruct Hv as (Hping & before & Hb & Hf).
  rewrite Hb in Hrest. rewrite <- app_assoc in Hrest. simpl in Hrest.
  split; [rewrite Hrest; apply in_or_app; right; now left|].
  split; [exact Hping|].
  intros q Hq Hpq. rewrite Hrest in Hq, Hs.
  apply in_app_or in Hq. destruct Hq as [Hq | [Hq | Hq]].
  - rewrite Forall_forall in Hf. rewrite (Hf q Hq) in Hpq. discriminate.
  - lia.
  - apply sorted_app_lt in Hs. rewrite Forall_forall in Hs.
    specialize (Hs q Hq). lia.
Qed.

(** X14, on a listing with three ports of which the two highest answer. *)
Lemma lowest_answering_port_example :
  fst (verifyConnection (fun port _ => (9000 <=? port)%Z)
         (parseListeningPorts "127.0.0.1:42100 127.0.0.1:9222 127.0.0.1:8080") "t")
  = Some 9222%Z
  /\ parseListeningPorts "127.0.0.1:42100 127.0.0.1:9222 127.0.0.1:8080"
     = [8080; 9222; 42100]%Z
  /\ (In 9222%Z (parseListeningPorts "127.0.0.1:42100 127.0.0.1:9222 127.0.0.1:8080")
      /\ (9000 <=? 9222)%Z = true
      /\ (forall q,
             In q (parseListeningPorts "127.0.0.1:42100 127.0.0.1:9222 127.0.0.1:8080") ->
             (9000 <=? q)%Z = true -> (9222 <= q)%Z)).
Proof.
  split; [reflexivity|].
  split; [reflexivity|].
  apply (lowest_answering_port_is_returned (fun port _ => (9000 <=? port)%Z)
           "127.0.0.1:42100 127.0.0.1:9222 127.0.0.1:8080" "t" 9222).
  reflexivity.
Defined.

Variable platform : Platform.
Variable parseListing : string -> option (list Win32Process).
Variable processList : nat -> option string.
Variable portList : nat -> Z -> option string.
Variable pingPort : nat -> Z -> string -> bool.

Lemma verifyConnection_found (ping : Z -> string -> bool) (ports : list Z)
    (token : string) (port : Z) :
  fst (verifyConnection ping ports token) = Some port ->
  In port ports /\ ping port token = true.
Proof.
  intros H.
  destruct (verifyConnection_spec ping token ports) as [(rest & Hrest) Hv].
  rewrite H in Hv. destruct Hv as (Hping & before & Hb & _).
  split; [|exact Hping].
  rewrite Hrest, Hb. apply in_or_app. left. apply in_or_app. right. now left.
Qed.

Lemma verifyConnection_none (ping : Z -> string -> bool) (ports : list Z)
    (token : string) :
  fst (verifyConnection ping ports token) = None ->
  Forall (fun q => ping q token = false) ports.
Proof.
  intros H.
  destruct (verifyConnection_spec ping token ports) as [_ Hv].
  rewrite H in Hv. exact (proj2 Hv).
Qed.

Lemma tryCandidates_spec (i : nat) (candidates : list ProcessInfo) :
  match fst (tryCandidates portList pingPort i candidates) with
  | Some r =>
      exists info,
        In info candidates
        /\ scanExtensionPort r = extensionPort info
        /\ scanCsrfToken r = csrfToken info
        /\ In (connectPort r) (identifyPorts (portList i (pid info)))
        /\ pingPort i (connectPort r) (csrfToken info) = true
  | None =>
      forall info port,
        In info candidates ->
        In port (identifyPorts (portList i (pid info))) ->
        pingPort i port (csrfToken info) = false
  end.
Proof.
  induction candidates as [|info rest IH]; [intros ? ? []|].
  cbn [tryCandidates].
  pose proof (identifyPorts_inRange (portList i (pid info))) as Hrange.
  destruct (identifyPorts (portList i (pid info))) as [|p ps] eqn:Eports.
  - destruct (fst (tryCandidates portList pingPort i rest)) as [r|].
    + destruct IH as (info' & Hin & H). exists info'. split; [now right | exact H].
    + intros info' port [Hi | Hi] Hp; [subst info'; rewrite Eports in Hp; destruct Hp|].
      eapply IH; eauto.
  - pose proof (verifyConnection_found (pingPort i) (p :: ps) (csrfToken info)) as Hfound.
    pose proof (verifyConnection_none (pingPort i) (p :: ps) (csrfToken info)) as Hnone.
    destruct (verifyConnection (pingPort i) (p :: ps) (csrfToken info))
      as [validPort probed].
    cbn [fst] in Hfound, Hnone.
    assert (Hrest :
      forall more,
        Forall (fun q => pingPort i q (csrfToken info) = false) (p :: ps) ->
        match fst (let '(found, more') := tryCandidates portList pingPort i rest in
                   (found, (more ++ more')%list)) with
        | Some r =>
            exists info',
              In info' (info :: rest)
              /\ scanExtensionPort r = extensionPort info'
              /\ scanCsrfToken r = csrfToken info'
              /\ In (connectPort r) (identifyPorts (portList i (pid info')))
              /\ pingPort i (connectPort r) (csrfToken info') = true
        | None =>
            forall info' port,
              In info' (info :: rest) ->
              In port (identifyPorts (portList i (pid info'))) ->
              pingPort i port (csrfToken info') = false
        end).
    { intros more Hall.
      destruct (tryCandidates portList pingPort i rest) as [found more'].
      cbn [fst] in *. destruct found as [r|].
      - destruct IH as (info' & Hin & H). exists info'. split; [now right | exact H].
      - intros info' port [Hi | Hi] Hp.
        + subst info'. rewrite Eports in Hp. rewrite Forall_forall in Hall. auto.
        + eapply IH; eauto. }
    destruct validPort as [[|valid|valid]|].
    + destruct (Hfound 0%Z eq_refl) as [Hin _].
      rewrite Forall_forall in Hrange. specialize (Hrange _ Hin).
      unfold inRange in Hrange. lia.
    + cbn [fst]. destruct (Hfound _ eq_refl) as [Hin Hping].
      exists info. simpl. rewrite Eports. auto.
    + cbn [fst]. destruct (Hfound _ eq_refl) as [Hin Hping].
      exists info. simpl. rewrite Eports. auto.
    + apply Hrest, Hnone. reflexivity.
Qed.

Lemma rounds_spec (n : nat) :
  forall i,
    match fst (rounds platform parseListing processList portList pingPort n i) with
    | Some r =>
        exists k,
          (i <= k < i + n)%nat
          /\ verifiedIn platform parseListing processList portList pingPort k r
          /\ forall j, (i <= j < k)%nat ->
               nothingAnswers platform parseListing processList portList pingPort j
    | None =>
        forall j, (i <= j < i + n)%nat ->
          nothingAnswers platform parseListing processList portList pingPort j
    end.
Proof.
  induction n as [|n IH]; intros i; cbn [rounds].
  - cbn [fst]. intros j Hj. lia.
  - pose proof (tryCandidates_spec i
                  (findProcesses platform parseListing processList i)) as Hround.
    destruct (tryCandidates portList pingPort i
                (findProcesses platform parseListing processList i))
      as [found probed].
    cbn [fst] in Hround. destruct found as [r|].
    + cbn [fst]. exists i. split; [lia|]. split; [exact Hround|].
      intros j Hj. lia.
    + specialize (IH (S i)).
      destruct (rounds platform parseListing processList portList pingPort n (S i))
        as [later more].
      cbn [fst] in *. destruct later as [r|].
      * destruct IH as (k & Hk & Hv & Hbefore).
        exists k. split; [lia|]. split; [exact Hv|].
        intros j Hj. destruct (Nat.eq_dec j i) as [-> | Hne].
        -- exact Hround.
        -- apply Hbefore. lia.
      * intros j Hj. destruct (Nat.eq_dec j i) as [-> | Hne].
        -- exact Hround.
        -- apply IH. lia.
Qed.

Lemma rounds_more (n m : nat) :
  forall i r,
    fst (rounds platform parseListing processList portList pingPort n i) = Some r ->
    rounds platform parseListing processList portList pingPort (n + m) i
    = rounds platform parseListing processList portList pingPort n i.
Proof.
  induction n as [|n IH]; intros i r; cbn [rounds Nat.add]; [discriminate|].
  destruct (tryCandidates portList pingPort i
              (findProcesses platform parseListing processList i))
    as [found probed].
  destruct found as [r'|]; [reflexivity|].
  intros H.
  destruct (rounds platform parseListing processList portList pingPort n (S i))
    as [later more] eqn:E.
  cbn [fst] in H. subst later.
  rewrite (IH (S i) r); rewrite E; reflexivity.
Qed.

End HunterExtras.

Section ScanExtras.
Import ProcessHunter.

(** X15. [scanEnvironment] searches the rounds exhaustively and in order:
    it returns a descriptor iff, in one of the [maxAttempts] rounds, some
    port listed for some candidate answers the probe with that candidate's
    token.  The descriptor comes from the first such round, carries the
    extension port and token of the candidate whose port answered, and its
    connect port lies in (1024, 65535]; when it returns nothing, no listed
    port of any candidate answered in any round. *)
Theorem scan_finds_first_round_that_answers
    (platform : Platform) (parseListing : string -> option (list Win32Process))
    (processList : nat -> option string) (portList : nat -> Z -> option string)
    (pingPort : nat -> Z -> string -> bool) (maxAttempts : nat) :
  match fst (scanEnvironment platform parseListing processList portList pingPort
               maxAttempts) with
  | Some r =>
      inRange (connectPort r)
      /\ exists k,
           (k < maxAttempts)%nat
           /\ verifiedIn platform parseListing processList portList pingPort k r
           /\ forall j, (j < k)%nat ->
                nothingAnswers platform parseListing processList portList pingPort j
  | None =>
      forall j, (j < maxAttempts)%nat ->
        nothingAnswers platform parseListing processList portList pingPort j
  end.
Proof.
  unfold scanEnvironment.
  pose proof (rounds_spec platform parseListing processList portList pingPort
                maxAttempts 0) as H.
  destruct (fst (rounds platform parseListing processList portList pingPort
                   maxAttempts 0)) as [r|].
  - destruct H as (k & Hk & Hv & Hbefore). split.
    + destruct Hv as (info & _ & _ & _ & Hin & _).
      pose proof (identifyPorts_inRange (portList k (pid info))) as Hr.
      rewrite Forall_forall in Hr. auto.
    + exists k. split; [lia|]. split; [exact Hv|].
      intros j Hj. apply Hbefore. lia.
  - intros j Hj. apply H. lia.
Qed.

(** X16. Allowing more attempts never changes a scan that succeeds: the
    descriptor and the ports probed are the same. *)
Theorem more_attempts_keep_the_result
    (platform : Platform) (parseListing : string -> option (list Win32Process))
    (processList : nat -> option string) (portList : nat -> Z -> option string)
    (pingPort : nat -> Z -> string -> bool) (maxAttempts extra : nat)
    (r : EnvironmentScanResult) :
  fst (scanEnvironment platform parseListing processList portList pingPort
         maxAttempts) = Some r ->
  scanEnvironment platform parseListing processList portList pingPort
    (maxAttempts + extra)
  = scanEnvironment platform parseListing processList portList pingPort maxAttempts.
Proof.
  unfold scanEnvironment. intros H. now apply rounds_more with (r := r).
Qed.

(** X16, on the machine whose server answers in the second round. *)
Lemma more_attempts_keep_the_result_example :
  fst (scanEnvironment linux (fun _ => None)
         (fun _ => Some Samples.processListing)
         (fun i _ => match i with
                     | O => None
                     | _ => Some "LISTEN 0 128 127.0.0.1:42100 0.0.0.0:*"
                     end)
         (fun _ port _ => (port =? 42100)%Z) 2)
  = Some {| scanExtensionPort := 40123; connectPort := 42100;
            scanCsrfToken := "3f2a-77c1" |}
  /\ fst (scanEnvironment linux (fun _ => None)
            (fun _ => Some Samples.processListing)
            (fun i _ => match i with
                        | O => None
                        | _ => Some "LISTEN 0 128 127.0.0.1:42100 0.0.0.0:*"
                        end)
            (fun _ port _ => (port =? 42100)%Z) 1)
     = None
  /\ scanEnvironment linux (fun _ => None)
       (fun _ => Some Samples.processListing)
       (fun i _ => match i with
                   | O => None
                   | _ => Some "LISTEN 0 128 127.0.0.1:42100 0.0.0.0:*"
                   end)
       (fun _ port _ => (port =? 42100)%Z) (2 + 3)
     = scanEnvironment linux (fun _ => None)
         (fun _ => Some Samples.processListing)
         (fun i _ => match i with
                     | O => None
                     | _ => Some "LISTEN 0 128 127.0.0.1:42100 0.0.0.0:*"
                     end)
         (fun _ port _ => (port =? 42100)%Z) 2.
Proof.
  split; [reflexivity|].
  split; [reflexivity|].
  apply (more_attempts_keep_the_result linux (fun _ => None)
           (fun _ => Some Samples.processListing) _ _ 2 3
           {| scanExtensionPort := 40123; connectPort := 42100;
              scanCsrfToken := "3f2a-77c1" |}).
  reflexivity.
Defined.

Lemma collectCandidates_In {A : Type} (body : A -> option ProcessInfo)
    (entries : list A) :
  forall (candidates : list ProcessInfo) (info : ProcessInfo),
    In info (collectCandidates body entries candidates) <->
    In info candidates \/ exists e, In e entries /\ body e = Some info.
Proof.
  induction entries as [|e rest IH]; intros candidates info; simpl.
  - split; [now left | intros [H | (e & [] & _)]; exact H].
  - destruct (body e) as [c|] eqn:E; rewrite IH.
    + rewrite in_app_iff. simpl. split.
      * intros [[H | [H | []]] | (e' & He' & Hb)]; auto.
        -- subst c. right. exists e. auto.
        -- right. exists e'. auto.
      * intros [H | (e' & [He' | He'] & Hb)]; auto.
        -- subst e'. left. right. left. congruence.
        -- right. exists e'. auto.
    + split.
      * intros [H | (e' & He' & Hb)]; auto. right. exists e'. auto.
      * intros [H | (e' & [He' | He'] & Hb)]; auto.
        -- subst e'. congruence.
        -- right. exists e'. auto.
Qed.

(** X17. Off Windows, the candidates [parseProcessInfo] returns are
    exactly what the lines of the listing yield: each comes from a line of
    at least three columns whose first column parses as its pid and whose
    command (the third column on) holds the marker argument and both
    flags, and each has a token that is not empty.  A listing without such
    a line, the empty listing included, gives no candidate. *)
Theorem candidates_come_from_listed_lines
    (parseListing : string -> option (list Win32Process))
    (platform : Platform) (stdout : string) (info : ProcessInfo) :
  platform <> win32 ->
  (In info (parseProcessInfo parseListing platform stdout) <->
   exists line, In line (linesOf stdout) /\ candidateOfLine line = Some info)
  /\ (forall line,
         candidateOfLine line = Some info ->
         (3 <= List.length (JS.splitSpaces (JS.trim line)))%nat
         /\ JS.parseInt (hd EmptyString (JS.splitSpaces (JS.trim line)))
            = Some (pid info)
         /\ isAntigravityProcess (commandLineOf line) = true
         /\ csrfToken info <> EmptyString)
  /\ parseProcessInfo parseListing platform EmptyString = [].
Proof.
  intros Hp. split; [|split].
  - destruct platform; [contradiction Hp; reflexivity | |]; simpl;
      rewrite collectCandidates_In; split;
        try (intros [[] | H]; exact H); intros H; now right.
  - intros line. unfold candidateOfLine, commandLineOf.
    destruct (Nat.ltb _ 3) eqn:L; [discriminate|].
    apply Nat.ltb_ge in L.
    destruct (JS.parseInt _) as [p|]; [|discriminate].
    destruct (isAntigravityProcess _); [|discriminate]. simpl.
    destruct (JSRegExp.group 1 _) as [[|c t]|]; try discriminate.
    intros H. inversion H; subst info. simpl.
    repeat split; auto. discriminate.
  - destruct platform; [contradiction Hp; reflexivity | |]; reflexivity.
Qed.

(** X17, on the listing of two processes. *)
Lemma candidates_come_from_listed_lines_example :
  linux <> win32
  /\ candidateOfLine Samples.serverLine
     = Some {| pid := 991; extensionPort := 40123; csrfToken := "3f2a-77c1" |}
  /\ (In {| pid := 991; extensionPort := 40123; csrfToken := "3f2a-77c1" |}
         (parseProcessInfo (fun _ => None) linux Samples.processListing) <->
      exists line,
        In line (linesOf Samples.processListing)
        /\ candidateOfLine line
           = Some {| pid := 991; extensionPort := 40123; csrfToken := "3f2a-77c1" |}).
Proof.
  split; [discriminate|].
  split; [reflexivity|].
  apply (candidates_come_from_listed_lines (fun _ => None) linux
           Samples.processListing
           {| pid := 991; extensionPort := 40123; csrfToken := "3f2a-77c1" |}).
  discriminate.
Defined.

End ScanExtras.

(** ** The input guards *)

Section GuardExtras.
Import InputGuard.

Lemma calls_expected (cs : list call) :
  forall (lo : Z) (g : Guard) (last : option Z),
    steady lo cs -> tracks lo g last ->
    snd (calls g cs) = expectedAnswers last cs.
Proof.
  induction cs as [|c cs IH]; intros lo g last Hs Ht; [reflexivity|].
  destruct c as [now|now|]; cbn [calls expectedAnswers steady] in *.
  - destruct Hs as [_ Hs]. apply (IH now); [exact Hs|]. left. split; reflexivity.
  - destruct Hs as [Hlo Hs]. unfold isUserTyping.
    destruct Ht as [[Hty Hlast] | [Hty Hlast]]; rewrite Hty; cbn [negb].
    + subst last.
      destruct (debounceMs <? now - lastActivityTime g)%Z eqn:E.
      * specialize (IH now {| lastActivityTime := lastActivityTime g;
                              isTyping := false |}
                       (Some (lastActivityTime g)) Hs).
        destruct (calls _ cs) as [g' answers]. cbn [snd] in *.
        rewrite IH.
        -- f_equal. symmetry. apply Z.leb_gt. now apply Z.ltb_lt.
        -- right. split; [reflexivity|]. now apply Z.ltb_lt.
      * specialize (IH now g (Some (lastActivityTime g)) Hs).
        destruct (calls g cs) as [g' answers]. cbn [snd] in *.
        rewrite IH.
        -- f_equal. symmetry. apply Z.leb_le. now apply Z.ltb_ge.
        -- left. split; [exact Hty | reflexivity].
    + specialize (IH now g last Hs).
      destruct (calls g cs) as [g' answers]. cbn [snd] in *.
      rewrite IH.
      * f_equal. destruct last as [t|]; [|reflexivity].
        symmetry. apply Z.leb_gt. lia.
      * right. split; [exact Hty|]. destruct last as [t|]; [lia | exact I].
  - apply (IH lo); [exact Hs|]. right. split; [reflexivity | exact I].
Qed.

(** X18. While the clock never goes back, a fresh guard answers every
    [isUserTyping()] as if it kept no state of its own: typing iff there
    was activity since the last [clearState()] and the latest was at most
    500 ms ago, whatever was asked before. *)
Theorem guard_answers_by_latest_activity (lo : Z) (cs : list call) :
  steady lo cs ->
  snd (calls create cs) = expectedAnswers None cs.
Proof.
  intros H. apply (calls_expected cs lo); [exact H|].
  right. split; [reflexivity | exact I].
Qed.

(** X18, on a run of calls; the last line shows a clock that goes back,
    where the guard has already given up. *)
Lemma guard_answers_example :
  steady 0
    [RecordActivity 1000; IsUserTyping 1500; IsUserTyping 1501;
     RecordActivity 1600; IsUserTyping 1700; ClearState; IsUserTyping 1701]
  /\ snd (calls create
            [RecordActivity 1000; IsUserTyping 1500; IsUserTyping 1501;
             RecordActivity 1600; IsUserTyping 1700; ClearState; IsUserTyping 1701])
     = [true; false; true; false]
  /\ snd (calls create [RecordActivity 1000; IsUserTyping 1600; IsUserTyping 1200])
     = [false; false]
  /\ snd (calls create
            [RecordActivity 1000; IsUserTyping 1500; IsUserTyping 1501;
             RecordActivity 1600; IsUserTyping 1700; ClearState; IsUserTyping 1701])
     = expectedAnswers None
         [RecordActivity 1000; IsUserTyping 1500; IsUserTyping 1501;
          RecordActivity 1600; IsUserTyping 1700; ClearState; IsUserTyping 1701].
Proof.
  assert (H : steady 0
                [RecordActivity 1000; IsUserTyping 1500; IsUserTyping 1501;
                 RecordActivity 1600; IsUserTyping 1700; ClearState;
                 IsUserTyping 1701])
    by (simpl; repeat split; lia).
  split; [exact H|].
  split; [reflexivity|].
  split; [reflexivity|].
  apply (guard_answers_by_latest_activity 0 _ H).
Defined.

Lemma toLowerCase_append (a b : string) :
  JS.toLowerCase (a ++ b) = JS.toLowerCase a ++ JS.toLowerCase b.
Proof.
  induction a as [|c a IH]; simpl; [reflexivity | now rewrite IH].
Qed.

Lemma startsWith_append (s p b : string) :
  JS.startsWith s p = true -> JS.startsWith (s ++ b) p = true.
Proof.
  revert s. induction p as [|x p IH]; intros [|y s]; simpl; auto.
  - intros _. now destruct b.
  - discriminate.
  - intros H. apply andb_true_iff in H. destruct H as [H1 H2].
    rewrite H1. simpl. auto.
Qed.

Lemma includes_append_r (s p b : string) :
  JS.includes s p = true -> JS.includes (s ++ b) p = true.
Proof.
  induction s as [|y s IH]; cbn [JS.includes append]; intros H.
  - rewrite orb_false_r in H.
    apply (startsWith_append EmptyString p b) in H. cbn [append] in H.
    destruct b; cbn [JS.includes]; rewrite H; reflexivity.
  - apply orb_true_iff in H. destruct H as [H | H].
    + apply (startsWith_append (String y s) p b) in H. cbn [append] in H.
      rewrite H. reflexivity.
    + rewrite (IH H). apply orb_true_r.
Qed.

Lemma includes_append_l (a s p : string) :
  JS.includes s p = true -> JS.includes (a ++ s) p = true.
Proof.
  intros H. induction a as [|x a IH]; simpl; [exact H|].
  rewrite IH. apply orb_true_r.
Qed.

(** X19. [isTypingIndicator] looks through case and through whatever else
    the class text holds: if it fires for a tag and a class text, it fires
    for every spelling of them in other case, with any text put before and
    after the class text. *)
Theorem typing_indicator_ignores_case_and_context
    (tagName tagName' className className' before after : string) :
  JS.toLowerCase tagName' = JS.toLowerCase tagName ->
  JS.toLowerCase className' = JS.toLowerCase className ->
  isTypingIndicator tagName className = true ->
  isTypingIndicator tagName' (before ++ className' ++ after) = true.
Proof.
  unfold isTypingIndicator. intros Ht Hc. rewrite Ht.
  destruct (String.eqb (JS.toLowerCase tagName) "input"
            || String.eqb (JS.toLowerCase tagName) "textarea"); [reflexivity|].
  rewrite !existsb_exists. intros (c & Hin & Hinc). exists c. split; [exact Hin|].
  rewrite !toLowerCase_append, Hc.
  apply includes_append_l, includes_append_r, Hinc.
Qed.

(** X19, on the class text of an editor pane. *)
Lemma typing_indicator_example :
  JS.toLowerCase "DIV" = JS.toLowerCase "div"
  /\ JS.toLowerCase "Monaco-Editor" = JS.toLowerCase "monaco-editor"
  /\ isTypingIndicator "div" "monaco-editor" = true
  /\ isTypingIndicator "span" "editor" = false
  /\ isTypingIndicator "DIV" ("pane " ++ "Monaco-Editor" ++ " focused") = true.
Proof.
  split; [reflexivity|].
  split; [reflexivity|].
  split; [reflexivity|].
  split; [reflexivity|].
  apply (typing_indicator_ignores_case_and_context "div" "DIV" "monaco-editor");
    reflexivity.
Defined.

End GuardExtras.

(** ** The wake schedule *)

Section ScheduleExtras.
Import WakeScheduler.

(** X20. A schedule that ends before it starts - one meant to run through
    the night - is never within work hours once it is enabled, on any day
    and at any time. *)
Theorem overnight_schedule_is_never_awake
    (config : Config.FreeHandConfig) (now : LocalTime) (s e : Z) :
  Config.wakeEnabled config = true ->
  parseTime (Config.startTime config) = Num s ->
  parseTime (Config.endTime config) = Num e ->
  (e < s)%Z ->
  isWithinWorkHours config now = Some false.
Proof.
  intros Hen Hs He Hlt. unfold isWithinWorkHours. rewrite Hen, Hs, He. simpl.
  destruct (existsb _ (Config.workDays config)); [|reflexivity]. simpl.
  destruct (s <=? hours now * 60 + minutes now)%Z eqn:E1; [|reflexivity].
  apply Z.leb_le in E1. f_equal. apply Z.leb_gt. lia.
Qed.

(** X20, for work from 22:00 to 06:00, asked on a Monday at 23:30. *)
Lemma overnight_schedule_example :
  Config.wakeEnabled
    (Config.getAll
       {| Config.autoAccept_enabled := None; Config.autoRun_enabled := None;
          Config.autoRetry_enabled := None; Config.multiTab_enabled := None;
          Config.quota_refreshInterval := None;
          Config.quota_warningThreshold := None;
          Config.wake_enabled := Some true;
          Config.wake_startTime := Some "22:00";
          Config.wake_endTime := Some "06:00";
          Config.wake_workDays := None; Config.safety_blocklist := None |})
  = true
  /\ parseTime "22:00" = Num 1320
  /\ parseTime "06:00" = Num 360
  /\ isWithinWorkHours
       (Config.getAll
          {| Config.autoAccept_enabled := None; Config.autoRun_enabled := None;
             Config.autoRetry_enabled := None; Config.multiTab_enabled := None;
             Config.quota_refreshInterval := None;
             Config.quota_warningThreshold := None;
             Config.wake_enabled := Some true;
             Config.wake_startTime := Some "22:00";
             Config.wake_endTime := Some "06:00";
             Config.wake_workDays := None; Config.safety_blocklist := None |})
       {| day := 1; hours := 23; minutes := 30 |}
     = Some false.
Proof.
  split; [reflexivity|].
  split; [reflexivity|].
  split; [reflexivity|].
  apply (overnight_schedule_is_never_awake _ _ 1320 360);
    [reflexivity | reflexivity | reflexivity | lia].
Defined.

Lemma splitChar_absent (sep : ascii) (s : string) :
  JSRegExp.mem sep s = false -> JS.splitChar sep s = [s].
Proof.
  induction s as [|c t IH]; simpl; intros H; [reflexivity|].
  apply orb_false_iff in H. destruct H as [Hc Ht].
  rewrite Hc, (IH Ht). reflexivity.
Qed.

Lemma parseTime_without_colon (timeStr : string) :
  JSRegExp.mem ":" timeStr = false -> parseTime timeStr = NaN.
Proof.
  intros H. unfold parseTime. rewrite (splitChar_absent _ _ H).
  now destruct (Number timeStr).
Qed.

(** X21. A start or end time written without a colon makes the sum of
    hours and minutes NaN: the enabled schedule is then never within work
    hours, whatever the other time says. *)
Theorem time_without_colon_is_never_awake
    (config : Config.FreeHandConfig) (now : LocalTime) :
  Config.wakeEnabled config = true ->
  JSRegExp.mem ":" (Config.startTime config) = false
  \/ JSRegExp.mem ":" (Config.endTime config) = false ->
  isWithinWorkHours config now = Some false.
Proof.
  intros Hen Hbad. unfold isWithinWorkHours. rewrite Hen. simpl.
  destruct (existsb _ (Config.workDays config)); [|reflexivity]. simpl.
  destruct Hbad as [H | H]; rewrite (parseTime_without_colon _ H).
  - reflexivity.
  - unfold leq. cbn [geq].
    destruct (parseTime (Config.startTime config)) as [y| |];
      try reflexivity.
    now destruct (y <=? hours now * 60 + minutes now)%Z.
Qed.

(** X21, for a start time given as the hour alone, at noon on a Monday. *)
Lemma time_without_colon_example :
  JSRegExp.mem ":" "9" = false
  /\ isWithinWorkHours
       {| Config.autoAccept := true; Config.autoRun := true;
          Config.autoRetry := true; Config.multiTab := false;
          Config.refreshInterval := 120; Config.warningThreshold := 30;
          Config.wakeEnabled := true; Config.startTime := "9";
          Config.endTime := "18:00"; Config.workDays := [1; 2; 3; 4; 5]%Z;
          Config.blocklist := [] |}
       {| day := 1; hours := 12; minutes := 0 |}
     = Some false.
Proof.
  split; [reflexivity|].
  apply time_without_colon_is_never_awake; [reflexivity | left; reflexivity].
Defined.

End ScheduleExtras.

(** ** The status bar and its commands *)

Section StatusBarExtras.
Import StatusBar.

Lemma update_loading (cfg : Config.FreeHandConfig) (c : Controller) :
  showsLoading c -> showsLoading (update cfg c).
Proof.
  intros H. unfold update. destruct H as (Hs & Ht & Hb). rewrite Hs.
  repeat split; assumption.
Qed.

Lemma updateQuota_loading (cfg : Config.FreeHandConfig) (p : Z) (c : Controller) :
  showsLoading c -> showsLoading (updateQuota cfg p c).
Proof.
  intros (Hs & Ht & Hb). repeat split; assumption.
Qed.

Lemma set_loading (write : Config.Settings -> Config.Settings) (w : Extension.World) :
  showsLoading (snd w) -> showsLoading (snd (Extension.set write w)).
Proof.
  intros H. unfold Extension.set. simpl. now apply update_loading.
Qed.

Lemma refreshQuota_loading (w : Extension.World) (p : Z) :
  showsLoading (snd (Extension.refreshQuota p w)).
Proof.
  unfold Extension.refreshQuota. simpl.
  apply update_loading, updateQuota_loading. repeat split.
Qed.

Lemma execute_loading (w : Extension.World) (c : command) :
  showsLoading (snd w) -> showsLoading (snd (execute w c)).
Proof.
  intros H. destruct c as [|p]; simpl.
  - unfold Extension.cycleState.
    destruct (negb _); [|destruct (negb _)]; simpl;
      repeat (apply update_loading); exact H.
  - apply refreshQuota_loading.
Qed.

(** X22. Once the refresh command has run, the status bar shows
    Loading for good: [update()] does nothing while the state is loading,
    so the update that ends the command, every change of the settings and
    every later click leave the bar as [setLoading()] set it. *)
Theorem refresh_leaves_the_bar_loading
    (w : Extension.World) (percentage : Z) (later : list command) :
  showsLoading (snd (fold_left execute (RefreshQuota percentage :: later) w)).
Proof.
  simpl.
  pose proof (refreshQuota_loading w percentage) as H.
  revert H. generalize (Extension.refreshQuota percentage w) as w'.
  induction later as [|c later IH]; intros w' H; simpl; [exact H|].
  apply IH, execute_loading, H.
Qed.

Lemma update_state (cfg : Config.FreeHandConfig) (c : Controller) :
  state c <> loading -> state (update cfg c) = mode cfg.
Proof.
  intros H. unfold update, mode.
  destruct (state c); try (now elim H);
    destruct (negb _); try reflexivity; destruct (Config.multiTab cfg); reflexivity.
Qed.

Lemma mode_not_loading (cfg : Config.FreeHandConfig) : mode cfg <> loading.
Proof.
  unfold mode. destruct (negb _); [discriminate|].
  destruct (Config.multiTab cfg); discriminate.
Qed.

Lemma set_state (write : Config.Settings -> Config.Settings) (w : Extension.World) :
  state (snd w) <> loading -> state (snd (Extension.set write w)) <> loading.
Proof.
  intros H. unfold Extension.set. simpl. rewrite update_state by exact H.
  apply mode_not_loading.
Qed.

Lemma cycleState_mode (w : Extension.World) :
  mode (Config.getAll (fst (Extension.cycleState w)))
  = nextMode (mode (Config.getAll (fst w))).
Proof.
  destruct w as [s bar]. destruct s as [aa ar rt mt ri wt we ws wn wd bl].
  destruct aa as [[|]|], ar as [[|]|], mt as [[|]|]; reflexivity.
Qed.

(** X23. A click on the status bar walks the cycle OFF, ON, Multi-Tab,
    OFF: the command leaves the settings in the mode that follows the one
    they were in, the bar shows that mode unless it was loading, and three
    clicks bring the mode back. *)
Theorem click_cycles_through_the_modes (w : Extension.World) :
  state (snd w) <> loading ->
  mode (Config.getAll (fst (Extension.cycleState w)))
  = nextMode (mode (Config.getAll (fst w)))
  /\ state (snd (Extension.cycleState w))
     = nextMode (mode (Config.getAll (fst w)))
  /\ mode (Config.getAll
             (fst (Extension.cycleState
                     (Extension.cycleState (Extension.cycleState w)))))
     = mode (Config.getAll (fst w)).
Proof.
  intros H. split; [apply cycleState_mode|]. split.
  - rewrite <- cycleState_mode. unfold Extension.cycleState.
    destruct (negb _); [|destruct (negb _)]; cbn [fst snd];
      apply update_state; repeat (apply set_state); exact H.
  - rewrite !cycleState_mode. unfold mode.
    destruct (negb _); [reflexivity|].
    destruct (Config.multiTab _); reflexivity.
Qed.

(** X23, from the settings as installed, where both features default to
    on: the first click leads to Multi-Tab. *)
Lemma click_cycles_example :
  state (snd ({| Config.autoAccept_enabled := None; Config.autoRun_enabled := None;
                 Config.autoRetry_enabled := None; Config.multiTab_enabled := None;
                 Config.quota_refreshInterval := None;
                 Config.quota_warningThreshold := None;
                 Config.wake_enabled := None; Config.wake_startTime := None;
                 Config.wake_endTime := None; Config.wake_workDays := None;
                 Config.safety_blocklist := None |}, create)) <> loading
  /\ state (snd (Extension.cycleState
                   ({| Config.autoAccept_enabled := None;
                       Config.autoRun_enabled := None;
                       Config.autoRetry_enabled := None;
                       Config.multiTab_enabled := None;
                       Config.quota_refreshInterval := None;
                       Config.quota_warningThreshold := None;
                       Config.wake_enabled := None; Config.wake_startTime := None;
                       Config.wake_endTime := None; Config.wake_workDays := None;
                       Config.safety_blocklist := None |}, create)))
     = multi.
Proof.
  split; [discriminate|].
  exact (proj1 (proj2 (click_cycles_through_the_modes
                         ({| Config.autoAccept_enabled := None;
                             Config.autoRun_enabled := None;
                             Config.autoRetry_enabled := None;
                             Config.multiTab_enabled := None;
                             Config.quota_refreshInterval := None;
                             Config.quota_warningThreshold := None;
                             Config.wake_enabled := None;
                             Config.wake_startTime := None;
                             Config.wake_endTime := None;
                             Config.wake_workDays := None;
                             Config.safety_blocklist := None |}, create)
                         ltac:(discriminate)))).
Defined.

End StatusBarExtras.

(** ** More on [isBlocked] and on the Windows listing *)

Section LateExtras.
Import SafetyFilter ProcessHunter.

Lemma scan_wrapped (RegExp : string -> string -> option (string -> bool))
    (entries : list string) (before command after : string) :
  Forall (fun e => delimited e = false) entries ->
  scan RegExp entries (JS.toLowerCase command) command = true ->
  scan RegExp entries (JS.toLowerCase (before ++ command ++ after))
    (before ++ command ++ after) = true.
Proof.
  induction 1 as [|e entries He _ IH]; [discriminate|].
  rewrite !(scan_cons RegExp e entries), !orb_true_iff.
  intros [H | H]; [left | right; exact (IH H)].
  revert H. simpl. rewrite He.
  destruct (JS.trim (JS.toLowerCase e)) as [|a t]; [discriminate|].
  destruct (JS.includes (JS.toLowerCase command) (String a t)) eqn:E; [|discriminate].
  intros _. rewrite !toLowerCase_append.
  now rewrite (includes_append_l _ _ _ (includes_append_r _ _ _ E)).
Qed.

(** X24. On a blocklist without delimited entries, the default list
    among them, a blocked command stays blocked inside any longer command
    line: text put before or after it never unblocks it. *)
Theorem wrapping_never_unblocks
    (RegExp : string -> string -> option (string -> bool))
    (custom : setting) (before command after : string) :
  Forall (fun e => delimited e = false) (getBlocklist custom) ->
  isBlocked RegExp custom command = true ->
  isBlocked RegExp custom (before ++ command ++ after) = true.
Proof.
  unfold isBlocked. apply scan_wrapped.
Qed.

(** X24, with the default list. *)
Lemma wrapping_never_unblocks_example :
  Forall (fun e => delimited e = false) (getBlocklist None)
  /\ isBlocked JSRegExp.newRegExp None "RM -RF /" = true
  /\ isBlocked JSRegExp.newRegExp None ("cd /tmp && sudo " ++ "RM -RF /" ++ " ; echo done")
     = true.
Proof.
  assert (H : Forall (fun e => delimited e = false) (getBlocklist None))
    by (repeat constructor).
  split; [exact H|].
  split; [reflexivity|].
  apply (wrapping_never_unblocks JSRegExp.newRegExp None _ _ _ H). reflexivity.
Defined.

(** X25, at an entry whose expression holds slashes of its own: what is
    compiled runs up to the last slash. *)
Lemma delimited_shape_example :
  JSRegExp.mem "/" "g" = false
  /\ delimited "//dev/sd[a-z]/g" = true
  /\ regexPattern "//dev/sd[a-z]/g" = "/dev/sd[a-z]"
  /\ regexFlags "//dev/sd[a-z]/g" = "g".
Proof.
  split; [reflexivity|].
  apply (delimited_shape "/dev/sd[a-z]" "g"). reflexivity.
Defined.

(** X26. On Windows, the candidates [parseProcessInfo] returns are
    exactly what the processes of the parsed listing yield: each comes
    from a process with a pid other than 0 whose command line holds the
    marker argument and both flags, and has a token that is not empty.  A
    listing without a brace, or one that does not parse, gives no
    candidate. *)
Theorem windows_candidates_come_from_parsed_listing
    (parseListing : string -> option (list Win32Process))
    (stdout : string) (info : ProcessInfo) :
  (In info (parseProcessInfo parseListing win32 stdout) <->
   JS.includes stdout "{" = true
   /\ exists data item,
        parseListing stdout = Some data
        /\ In item data /\ candidateOfItem item = Some info)
  /\ (forall item,
         candidateOfItem item = Some info ->
         ProcessId item = Some (pid info)
         /\ pid info <> 0%Z
         /\ csrfToken info <> EmptyString
         /\ exists cmd,
              CommandLine item = Some cmd /\ isAntigravityProcess cmd = true)
  /\ (JS.includes stdout "{" = false \/ parseListing stdout = None ->
      parseProcessInfo parseListing win32 stdout = []).
Proof.
  split; [|split].
  - simpl. destruct (JS.includes stdout "{").
    + destruct (parseListing stdout) as [data|].
      * rewrite collectCandidates_In. split.
        -- intros [[] | (item & Hin & Hb)]. split; [reflexivity|].
           exists data, item. auto.
        -- intros (_ & data' & item & Hd & Hin & Hb). inversion Hd; subst data'.
           right. exists item. auto.
      * split; [intros [] | intros (_ & data & item & Hd & _); discriminate].
    + split; [intros [] | intros (H & _); discriminate].
  - intros item. unfold candidateOfItem.
    destruct (CommandLine item) as [[|c t]|] eqn:Ec;
      try (simpl; discriminate).
    destruct (isAntigravityProcess (String c t)) eqn:Ea; [|discriminate].
    cbn [negb].
    destruct (ProcessId item) as [p|]; [|discriminate].
    destruct (JSRegExp.group 1 _) as [[|a s]|]; try discriminate.
    destruct (p =? 0)%Z eqn:Ep; [discriminate|].
    intros H. inversion H; subst info. cbn [pid csrfToken].
    apply Z.eqb_neq in Ep.
    repeat split; auto; [discriminate|]. exists (String c t). auto.
  - simpl. intros [H | H]; rewrite H; [reflexivity|].
    now destruct (JS.includes stdout "{").
Qed.

End LateExtras.
